(** * StudyBuddy front-end: the API gateway client and the upload, chat and
    quiz flows, embedded as state-passing functions.

    Sources embedded here:
    - [src/lib/api.ts]                  -> [Module Api]
    - [src/types/index.ts]              -> the record modules below
    - [src/components/UploadModal.tsx]  -> [Module UploadModal],
                                           [Module QuizInterface],
                                           [Module QuizResults]
    - [src/components/ChatInterface.tsx]-> [Module ChatInterface],
                                           [Module ChatSession]
    - [src/components/NotesGrid.tsx]    -> [Module NotesGrid], [Module Index]
    - [src/components/StudyDashboard.tsx] -> [Module StudyDashboard]

    Conventions.
    - A JavaScript string is the [string] of the bytes of its UTF-8
      encoding (a lone surrogate is encoded like any other code point), so
      a character outside ASCII takes two to four bytes.
    - A [number] that the code only counts with (file size, HTTP status,
      progress, clock readings) is an [N].
    - [string | null] and optional fields are [option string]; a value
      whose type the code does not check at run time (a parsed response
      body that is read before use, the client's token) is a [Value].
    - A promise is split at its [await]: the part of a handler that runs
      before the [await] is one function, the part that runs when the
      promise settles is another one, which receives the settled value as a
      [Completion].
    - A server response that its caller only hands on or reads behind a
      truthiness test is taken at the shape the caller casts it to, with
      every field tested for truthiness optional; the response that
      [register] and [login] read [data.token] from is an untyped [Value].
    - Handlers return the new component state together with the list of
      effects they fire (gateway calls, toasts, timers), in program order. *)

From Stdlib Require Import Ascii NArith ZArith DecimalString Lia.
From Stdlib Require DecimalPos DecimalN.
From stdpp Require Import base option list strings gmap.

Local Open Scope N_scope.

(** ** JavaScript helpers *)

(** [String(n)] / template-literal conversion of a non-negative integer. *)
Definition number_to_string (n : N) : string :=
  NilZero.string_of_uint (N.to_uint n).

(** Truthiness of a string: only the empty string is falsy. *)
Definition truthy (s : string) : bool :=
  match s with EmptyString => false | String _ _ => true end.

(** Truthiness of a [string | null | undefined] value. *)
Definition truthy_opt (o : option string) : bool :=
  match o with Some s => truthy s | None => false end.

(** [a || b] where [a : string | undefined] and [b : string]. *)
Definition js_or (a : option string) (b : string) : string :=
  if truthy_opt a then default b a else b.

(** The outcome of awaiting a promise, or of running code that may throw. *)
Inductive Thrown :=
| Error (message : string)   (* [new Error(message)] *)
| FetchFailed                (* [fetch] rejected: no HTTP response at all *)
| SyntaxError                (* [response.json()] rejected: body is not JSON *)
| TypeError.                 (* property read on [undefined] or [null] *)

Inductive Completion (A : Type) :=
| Return (a : A)
| Throw (e : Thrown).
Arguments Return {A} a.
Arguments Throw {A} e.

#[local] Set Warnings "-register-all".

(** A JavaScript value as [JSON.parse] builds it, and [undefined].  A
    number is kept as the text [String] prints it as (so [0] and [-0] are
    both the text [0]); an object is the list of its own properties, each
    key once. *)
Inductive Value :=
| VUndefined
| VNull
| VBool (b : bool)
| VNumber (text : string)
| VString (s : string)
| VArray (items : list Value)
| VObject (fields : list (string * Value)).
#[local] Set Warnings "register-all".

(** Truthiness: [undefined], [null], [false], [0] and the empty string are
    falsy, everything else (every array and object too) is truthy. *)
Definition truthy_value (v : Value) : bool :=
  match v with
  | VUndefined | VNull => false
  | VBool b => b
  | VNumber text => negb (String.eqb text "0")
  | VString s => truthy s
  | VArray _ | VObject _ => true
  end.

(** [String(v)], the conversion a template literal and
    [localStorage.setItem] apply: an array prints its elements joined by
    commas, [null] and [undefined] elements as nothing; an object prints as
    [[object Object]]. *)
Fixpoint to_String (v : Value) : string :=
  match v with
  | VUndefined => "undefined"
  | VNull => "null"
  | VBool true => "true"
  | VBool false => "false"
  | VNumber text => text
  | VString s => s
  | VArray items =>
      (fix join (l : list Value) : string :=
         let element (x : Value) : string :=
           match x with
           | VUndefined | VNull => ""
           | _ => to_String x
           end in
         match l with
         | [] => ""
         | [x] => element x
         | x :: l' => element x +:+ "," +:+ join l'
         end) items
  | VObject _ => "[object Object]"
  end.

(** [fields] looked up by key. *)
Fixpoint own_property (key : string) (fields : list (string * Value))
  : option Value :=
  match fields with
  | [] => None
  | (k, v) :: fields' =>
      if String.eqb k key then Some v else own_property key fields'
  end.

(** The property read [v.key], for a [key] that no built-in prototype
    defines (the client reads [data] and [token]): a [TypeError] on
    [undefined] and [null], the own property of an object, [undefined] when
    the object has none and on every other value. *)
Definition member (key : string) (v : Value) : Completion Value :=
  match v with
  | VUndefined | VNull => Throw TypeError
  | VObject fields => Return (default VUndefined (own_property key fields))
  | VBool _ | VNumber _ | VString _ | VArray _ => Return VUndefined
  end.

(** ** [src/types/index.ts] *)

Module Note.
Record t := {
  id : string;
  note_name : string;
  title : option string;
  filename : option string;
  summary : option string;
  content : option string;
  uploadedAt : option string;
  fileSize : option N;
  fileType : option string }.
End Note.

Inductive QuestionType := multiple_choice | short_answer | essay.
Inductive Difficulty := easy | medium | hard.

Module Question.
Record t := {
  id : string;
  noteId : string;
  question : string;
  type : QuestionType;
  difficulty : Difficulty;
  options : option (list string);
  correctAnswer : option string;
  createdAt : string }.
End Question.

Module Answer.
Record t := { question : string; answer : string }.
End Answer.

Inductive Role := user | assistant.

Module ConversationMessage.
Record t := {
  id : string;
  role : Role;
  content : string;
  timestamp : string }.
End ConversationMessage.

(** The browser's [File]: the three properties the client reads. *)
Module File.
Record t := { name : string; size : N; type : string }.
End File.

(** ** [src/lib/api.ts]: the gateway client *)

Module Api.

Definition BASE_URL : string := "https://learn-with-ai.getxoxo.space".

Module API_ENDPOINTS.
Module auth.
Definition register : string := "/api/v1/auth/register".
Definition login : string := "/api/v1/auth/login".
End auth.
Module notes.
Definition upload : string := "/api/v1/notes/upload".
Definition list : string := "/api/v1/notes".
Definition get (id : string) : string := "/api/v1/notes/" +:+ id.
Definition delete (id : string) : string := "/api/v1/notes/" +:+ id.
Definition ask (id : string) : string :=
  "/api/v1/notes/" +:+ id +:+ "/ask".
Definition generateQuestions (id : string) : string :=
  "/api/v1/notes/" +:+ id +:+ "/generate-questions".
Definition submitAnswers (id : string) : string :=
  "/api/v1/notes/" +:+ id +:+ "/submit-answers".
Definition conversations (id : string) : string :=
  "/api/v1/notes/" +:+ id +:+ "/conversations".
End notes.
Module questions.
Definition graded (id : string) : string :=
  "/api/v1/questions/" +:+ id +:+ "/graded".
End questions.
End API_ENDPOINTS.

(** The object a method hands to [JSON.stringify] for the request body. *)
Inductive Payload :=
| RegisterPayload (email password name : string)
| LoginPayload (email password : string)
| AskPayload (question : string)
| GeneratePayload (question_type : string) (number_of_questions : N)
                  (difficulty : string)
| SubmitPayload (answers : list Answer.t).

Inductive Body :=
| JsonBody (p : Payload)        (* [JSON.stringify(p)] *)
| FormBody (file : File.t).     (* [FormData] with the single field [file] *)

(** [RequestInit], and what [fetch] is finally called with. *)
Record RequestInit := {
  method : option string;
  headers : gmap string string;
  body : option Body }.

Definition no_options : RequestInit :=
  {| method := None; headers := ∅; body := None |}.

Record FetchCall := { url : string; init : RequestInit }.

(** The [Response] of a [fetch]; [json] is what [response.json()] settles
    to, at the type [T] the caller casts it to. *)
Record Response (T : Type) := {
  status : N;
  statusText : string;
  json : Completion T }.
Arguments status {T} _.
Arguments statusText {T} _.
Arguments json {T} _.

(** [response.ok]: the status is in the range 200..299. *)
Definition ok {T} (response : Response T) : bool :=
  (200 <=? status response) && (status response <=? 299).

Inductive FetchOutcome (T : Type) :=
| Unreachable                       (* the promise of [fetch] rejects *)
| Responded (response : Response T).
Arguments Unreachable {T}.
Arguments Responded {T} response.

(** The remote side: what the network answers to a given [fetch]. *)
Definition Network (T : Type) := FetchCall → FetchOutcome T.

(** The singleton [apiClient] with the browser state around it:
    its private [token], [localStorage], and the [fetch] calls issued so
    far (oldest first). *)
Record World := {
  token : Value;
  localStorage : gmap string string;
  fetched : list FetchCall }.

Definition set_token (t : Value) (w : World) : World :=
  {| token := t; localStorage := localStorage w; fetched := fetched w |}.
Definition set_localStorage (ls : gmap string string) (w : World) : World :=
  {| token := token w; localStorage := ls; fetched := fetched w |}.
Definition fetch (c : FetchCall) (w : World) : World :=
  {| token := token w; localStorage := localStorage w;
     fetched := fetched w ++ [c] |}.

(** [localStorage.getItem(key)]: the stored string, or [null]. *)
Definition getItem (key : string) (ls : gmap string string) : Value :=
  match ls !! key with
  | Some s => VString s
  | None => VNull
  end.

(** [constructor()]: the token is read from [localStorage]. *)
Definition constructor (ls : gmap string string) : World :=
  {| token := getItem "authToken" ls; localStorage := ls; fetched := [] |}.

(** [`Bearer ${this.token}`]: a [null] token prints as [null]. *)
Definition bearer (t : Value) : string :=
  "Bearer " +:+ to_String t.

(** [request<T>(endpoint, options)], lines 33-57. *)
Definition request_headers (options : RequestInit) (w : World)
  : gmap string string :=
  let headers := headers options ∪ {[ "Content-Type" := "application/json" ]} in
  if truthy_value (token w)
  then <[ "Authorization" := bearer (token w) ]> headers
  else headers.

Definition request_call (endpoint : string) (options : RequestInit)
    (w : World) : FetchCall :=
  {| url := BASE_URL +:+ endpoint;
     init := {| method := method options;
                headers := request_headers options w;
                body := body options |} |}.

Definition request {T} (endpoint : string) (options : RequestInit)
    (net : Network T) (w : World) : Completion T * World :=
  let call := request_call endpoint options w in
  let w := fetch call w in
  match net call with
  | Unreachable => (Throw FetchFailed, w)
  | Responded response =>
      if negb (ok response)
      then (Throw (Error ("API Error: " +:+ number_to_string (status response)
                            +:+ " " +:+ statusText response)), w)
      else (json response, w)
  end.

(** [response.data.token], lines 68 and 81.  The cast of the response to
    [{ message; data: { token; name } }] is erased at run time: the two
    property reads meet whatever the body parsed to. *)
Definition data_token (response : Value) : Completion Value :=
  match member "data" response with
  | Return data => member "token" data
  | Throw e => Throw e
  end.

(** [this.token = t; localStorage.setItem('authToken', this.token)]. *)
Definition store_token (t : Value) (w : World) : World :=
  set_localStorage (<[ "authToken" := to_String t ]> (localStorage w))
    (set_token t w).

(** [register] and [login], lines 60-84: when [response.data.token] throws,
    nothing has been assigned yet. *)
Definition register (email password name : string)
    (net : Network Value) (w : World) : Completion Value * World :=
  match request API_ENDPOINTS.auth.register
          {| method := Some "POST"; headers := ∅;
             body := Some (JsonBody (RegisterPayload email password name)) |}
          net w with
  | (Return response, w) =>
      match data_token response with
      | Return t => (Return response, store_token t w)
      | Throw e => (Throw e, w)
      end
  | (Throw e, w) => (Throw e, w)
  end.

Definition login (email password : string)
    (net : Network Value) (w : World) : Completion Value * World :=
  match request API_ENDPOINTS.auth.login
          {| method := Some "POST"; headers := ∅;
             body := Some (JsonBody (LoginPayload email password)) |}
          net w with
  | (Return response, w) =>
      match data_token response with
      | Return t => (Return response, store_token t w)
      | Throw e => (Throw e, w)
      end
  | (Throw e, w) => (Throw e, w)
  end.

Definition logout (w : World) : World :=
  set_localStorage (delete "authToken" (localStorage w)) (set_token VNull w).

(** [uploadNote(file)], lines 92-109: its own [fetch], outside [request]. *)
Definition uploadNote_call (file : File.t) (w : World) : FetchCall :=
  {| url := BASE_URL +:+ API_ENDPOINTS.notes.upload;
     init := {| method := Some "POST";
                headers := {[ "Authorization" := bearer (token w) ]};
                body := Some (FormBody file) |} |}.

Definition uploadNote {T} (file : File.t) (net : Network T) (w : World)
  : Completion T * World :=
  let call := uploadNote_call file w in
  let w := fetch call w in
  match net call with
  | Unreachable => (Throw FetchFailed, w)
  | Responded response =>
      if negb (ok response)
      then (Throw (Error ("Upload failed: "
                            +:+ number_to_string (status response))), w)
      else (json response, w)
  end.

Definition getNotes {T} : Network T → World → Completion T * World :=
  request API_ENDPOINTS.notes.list no_options.

Definition getNote {T} (id : string)
  : Network T → World → Completion T * World :=
  request (API_ENDPOINTS.notes.get id) no_options.

Definition deleteNote {T} (id : string)
  : Network T → World → Completion T * World :=
  request (API_ENDPOINTS.notes.delete id)
    {| method := Some "DELETE"; headers := ∅; body := None |}.

Definition askQuestion {T} (noteId question : string)
  : Network T → World → Completion T * World :=
  request (API_ENDPOINTS.notes.ask noteId)
    {| method := Some "POST"; headers := ∅;
       body := Some (JsonBody (AskPayload question)) |}.

Definition generateQuestions {T} (noteId questionType : string)
    (numberOfQuestions : N) (difficulty : string)
  : Network T → World → Completion T * World :=
  request (API_ENDPOINTS.notes.generateQuestions noteId)
    {| method := Some "POST"; headers := ∅;
       body := Some (JsonBody (GeneratePayload questionType
                                 numberOfQuestions difficulty)) |}.

Definition submitAnswers {T} (noteId : string) (answers : list Answer.t)
  : Network T → World → Completion T * World :=
  request (API_ENDPOINTS.notes.submitAnswers noteId)
    {| method := Some "POST"; headers := ∅;
       body := Some (JsonBody (SubmitPayload answers)) |}.

Definition getConversations {T} (noteId : string)
  : Network T → World → Completion T * World :=
  request (API_ENDPOINTS.notes.conversations noteId) no_options.

Definition getGradedQuestion {T} (questionId : string)
  : Network T → World → Completion T * World :=
  request (API_ENDPOINTS.questions.graded questionId) no_options.

Definition isAuthenticated (w : World) : bool := truthy_value (token w).

(** The protected methods (every network method but [register] and
    [login]) as data, so that statements can range over all of them. *)
Inductive Call :=
| UploadNote (file : File.t)
| GetNotes
| GetNote (id : string)
| DeleteNote (id : string)
| AskQuestion (noteId question : string)
| GenerateQuestions (noteId questionType : string) (numberOfQuestions : N)
                    (difficulty : string)
| SubmitAnswers (noteId : string) (answers : list Answer.t)
| GetConversations (noteId : string)
| GetGradedQuestion (questionId : string).

Definition perform {T} (c : Call) : Network T → World → Completion T * World :=
  match c with
  | UploadNote file => uploadNote file
  | GetNotes => getNotes
  | GetNote id => getNote id
  | DeleteNote id => deleteNote id
  | AskQuestion noteId question => askQuestion noteId question
  | GenerateQuestions noteId ty n d => generateQuestions noteId ty n d
  | SubmitAnswers noteId answers => submitAnswers noteId answers
  | GetConversations noteId => getConversations noteId
  | GetGradedQuestion id => getGradedQuestion id
  end.

(** Protected methods called one after the other, each awaited. *)
Fixpoint perform_all {T} (cs : list Call) (net : Network T) (w : World)
  : World :=
  match cs with
  | [] => w
  | c :: cs => perform_all cs net (perform c net w).2
  end.

(** The [Authorization] header a [fetch] call carries, if any. *)
Definition Authorization (c : FetchCall) : option string :=
  headers (init c) !! "Authorization".

End Api.

(** ** What a component handler can do besides updating its state *)

Module Toast.
Record t := { title : string; description : string; destructive : bool }.
End Toast.

Inductive Effect :=
| ApiCall (c : Api.Call)        (* [apiClient.<method>(...)] is invoked *)
| ShowToast (t : Toast.t)       (* [toast({...})] *)
| SetInterval (ms : N)          (* [setInterval(..., ms)] *)
| ClearInterval                 (* [clearInterval(progressInterval)] *)
| SetTimeout (ms : N)           (* [setTimeout(..., ms)] *)
| ConsoleLog (text : string)    (* [console.log(text)] *)
| FocusInput                    (* [inputRef.current?.focus()] *)
| OnSuccess                     (* the [onSuccess] prop is called *)
| OnClose.                      (* the [onClose] prop is called *)

Definition is_ApiCall (e : Effect) : bool :=
  match e with ApiCall _ => true | _ => false end.

(** ** [src/components/UploadModal.tsx], lines 1-253: [UploadModal] *)

Module UploadModal.

Inductive UploadStatus := idle | uploading | success | error.

Record State := {
  file : option File.t;
  isUploading : bool;
  uploadProgress : N;
  uploadStatus : UploadStatus }.

Definition initial : State :=
  {| file := None; isUploading := false; uploadProgress := 0;
     uploadStatus := idle |}.

Definition maxSize : N := 20 * 1024 * 1024.

Definition allowedTypes : list string :=
  [ "application/pdf";
    "application/vnd.openxmlformats-officedocument.wordprocessingml.document";
    "text/plain";
    "text/markdown" ].

(** [allowedTypes.includes(t)] *)
Definition includes (l : list string) (t : string) : bool :=
  bool_decide (t ∈ l).

(** [handleFileSelect(selectedFile)], lines 35-65. *)
Definition handleFileSelect (selectedFile : File.t) (s : State)
  : State * list Effect :=
  if maxSize <? File.size selectedFile then
    (s, [ShowToast {| Toast.title := "File too large";
                      Toast.description :=
                        "Please select a file smaller than 20MB.";
                      Toast.destructive := true |}])
  else if negb (includes allowedTypes (File.type selectedFile)) then
    (s, [ShowToast {| Toast.title := "Unsupported file type";
                      Toast.description :=
                        "Please upload a PDF, DOCX, TXT, or MD file.";
                      Toast.destructive := true |}])
  else
    ({| file := Some selectedFile; isUploading := isUploading s;
        uploadProgress := uploadProgress s; uploadStatus := idle |}, []).

(** [handleDrop] and the file input's [onChange]: both call
    [handleFileSelect] when a file is present. *)
Definition handleDrop (dropped : option File.t) (s : State)
  : State * list Effect :=
  match dropped with
  | Some f => handleFileSelect f s
  | None => (s, [])
  end.

(** [reset()], lines 116-123. *)
Definition reset (s : State) : State :=
  {| file := None; isUploading := isUploading s; uploadProgress := 0;
     uploadStatus := idle |}.

(** The callback of [setTimeout(..., 1500)], lines 98-102: it runs once
    the successful attempt is over, and closes the modal. *)
Definition closing (s : State) : State * list Effect :=
  (reset s, [OnSuccess; OnClose]).

(** One run of [handleUpload], lines 75-114.  Besides the component state
    it owns the interval [progressInterval] and the promise of
    [apiClient.uploadNote(file)]. *)
Record Attempt := {
  ui : State;
  progressInterval : bool;   (* the interval is set and not yet cleared *)
  awaiting : bool }.         (* the upload promise has not settled yet *)

(** The part of [handleUpload] before its [await]. *)
Definition handleUpload (s : State) : Attempt * list Effect :=
  match file s with
  | None => ({| ui := s; progressInterval := false; awaiting := false |}, [])
  | Some f =>
      ({| ui := {| file := Some f; isUploading := true; uploadProgress := 0;
                   uploadStatus := uploading |};
          progressInterval := true; awaiting := true |},
       [SetInterval 200; ApiCall (Api.UploadNote f)])
  end.

(** What can happen while the attempt runs. *)
Inductive Event :=
| Tick                                (* the 200 ms interval fires *)
| Settled (outcome : Completion unit). (* [await uploadNote(file)] returns *)

(** The interval callback: [setUploadProgress(prev => Math.min(prev + 10, 90))]. *)
Definition tick (s : State) : State :=
  {| file := file s; isUploading := isUploading s;
     uploadProgress := N.min (uploadProgress s + 10) 90;
     uploadStatus := uploadStatus s |}.

(** The part of [handleUpload] after its [await]. *)
Definition settled (outcome : Completion unit) (s : State)
  : State * list Effect :=
  match outcome with
  | Return _ =>
      ({| file := file s; isUploading := false; uploadProgress := 100;
          uploadStatus := success |},
       [ClearInterval;
        ShowToast {| Toast.title := "Upload successful!";
                     Toast.description :=
                       "Your note has been processed and AI summary generated.";
                     Toast.destructive := false |};
        SetTimeout 1500])
  | Throw _ =>
      ({| file := file s; isUploading := false;
          uploadProgress := uploadProgress s; uploadStatus := error |},
       [ClearInterval;
        ShowToast {| Toast.title := "Upload failed";
                     Toast.description :=
                       "Please try again or contact support if the problem persists.";
                     Toast.destructive := true |}])
  end.

(** An interval fires only while it is set; a promise settles once. *)
Definition step (ev : Event) (a : Attempt) : Attempt * list Effect :=
  match ev with
  | Tick =>
      if progressInterval a
      then ({| ui := tick (ui a); progressInterval := true;
               awaiting := awaiting a |}, [])
      else (a, [])
  | Settled outcome =>
      if awaiting a
      then let '(s, effs) := settled outcome (ui a) in
           ({| ui := s; progressInterval := false; awaiting := false |}, effs)
      else (a, [])
  end.

(** The successive states of an attempt under a sequence of events,
    starting with the state it is given. *)
Fixpoint trace (a : Attempt) (evs : list Event) : list Attempt :=
  match evs with
  | [] => [a]
  | ev :: evs => a :: trace (fst (step ev a)) evs
  end.

Definition progress (a : Attempt) : N := uploadProgress (ui a).

(** The two phases of an attempt: while the promise is pending the
    interval is set and the progress is at most 90; once the promise has
    settled the interval is cleared. *)
Definition running (a : Attempt) : Prop :=
  awaiting a = true ∧ progressInterval a = true ∧ progress a ≤ 90.

Definition finished (a : Attempt) : Prop :=
  awaiting a = false ∧ progressInterval a = false.

End UploadModal.

(** ** [src/components/ChatInterface.tsx] *)

Module ChatInterface.

(** [String.prototype.trim] strips the white space and line terminator
    characters: U+0009..U+000D, U+0020, U+00A0, U+1680, U+2000..U+200A,
    U+2028, U+2029, U+202F, U+205F, U+3000 and U+FEFF.  In UTF-8 the first
    six are one byte, U+00A0 is the two bytes C2 A0, and the others are
    three bytes each. *)
Definition white_space_1 (a : ascii) : bool :=
  let a := Ascii.N_of_ascii a in
  ((9 <=? a) && (a <=? 13)) || (a =? 32).

Definition white_space_2 (a b : ascii) : bool :=
  (Ascii.N_of_ascii a =? 194) && (Ascii.N_of_ascii b =? 160).

Definition white_space_3 (a b c : ascii) : bool :=
  let a := Ascii.N_of_ascii a in
  let b := Ascii.N_of_ascii b in
  let c := Ascii.N_of_ascii c in
  (* E1 9A 80: U+1680 *)
  ((a =? 225) && (b =? 154) && (c =? 128))
  (* E2 80 80..8A, A8, A9, AF: U+2000..U+200A, U+2028, U+2029, U+202F *)
  || ((a =? 226) && (b =? 128)
      && (((128 <=? c) && (c <=? 138)) || (c =? 168) || (c =? 169)
          || (c =? 175)))
  (* E2 81 9F: U+205F *)
  || ((a =? 226) && (b =? 129) && (c =? 159))
  (* E3 80 80: U+3000 *)
  || ((a =? 227) && (b =? 128) && (c =? 128))
  (* EF BB BF: U+FEFF *)
  || ((a =? 239) && (b =? 187) && (c =? 191)).

(** [trimStart]: white space characters are dropped from the front, one
    character (one, two or three bytes) at a time. *)
Fixpoint trimStart (s : string) : string :=
  match s with
  | EmptyString => EmptyString
  | String a r1 =>
      if white_space_1 a then trimStart r1 else
      match r1 with
      | EmptyString => s
      | String b r2 =>
          if white_space_2 a b then trimStart r2 else
          match r2 with
          | EmptyString => s
          | String c r3 => if white_space_3 a b c then trimStart r3 else s
          end
      end
  end.

(** The string consists of white space characters only. *)
Fixpoint blank (s : string) : bool :=
  match s with
  | EmptyString => true
  | String a r1 =>
      if white_space_1 a then blank r1 else
      match r1 with
      | EmptyString => false
      | String b r2 =>
          if white_space_2 a b then blank r2 else
          match r2 with
          | EmptyString => false
          | String c r3 => white_space_3 a b c && blank r3
          end
      end
  end.

(** [trimEnd]: the string is cut where what remains of it is white space
    only.  No white space character starts with a UTF-8 continuation byte,
    so the cut falls between two characters. *)
Fixpoint trimEnd (s : string) : string :=
  match s with
  | EmptyString => EmptyString
  | String c s' => if blank s then EmptyString else String c (trimEnd s')
  end.

Definition trim (s : string) : string := trimEnd (trimStart s).

Record State := {
  messages : list ConversationMessage.t;
  inputValue : string;
  isLoading : bool }.

Definition initial : State :=
  {| messages := []; inputValue := ""; isLoading := false |}.

Definition setMessages (f : list ConversationMessage.t → list ConversationMessage.t)
    (s : State) : State :=
  {| messages := f (messages s); inputValue := inputValue s;
     isLoading := isLoading s |}.

Definition setInputValue (v : string) (s : State) : State :=
  {| messages := messages s; inputValue := v; isLoading := isLoading s |}.

Definition setIsLoading (b : bool) (s : State) : State :=
  {| messages := messages s; inputValue := inputValue s; isLoading := b |}.

(** The clock as a handler reads it: [Date.now()] and
    [new Date().toISOString()]. *)
Record Clock := { now : N; toISOString : string }.

(** [`${note.title || note.filename}`] *)
Definition note_label (note : Note.t) : string :=
  if truthy_opt (Note.title note) then default "" (Note.title note)
  else default "undefined" (Note.filename note).

Definition quote : string := String "034"%char EmptyString.

Definition welcome (note : Note.t) (clock : Clock) : ConversationMessage.t :=
  {| ConversationMessage.id := "welcome";
     ConversationMessage.role := assistant;
     ConversationMessage.content :=
       "Hi! I'm your AI study assistant. I've analyzed your note "
       +:+ quote +:+ note_label note +:+ quote
       +:+ " and I'm ready to help you understand the material. What would you like to know?";
     ConversationMessage.timestamp := toISOString clock |}.

(** The mount effect, lines 31-40: [loadConversations()] runs up to its
    [await], then the welcome message is set. *)
Definition mount (note : Note.t) (clock : Clock) (s : State)
  : State * list Effect :=
  (setMessages (λ _, [welcome note clock]) s,
   [ApiCall (Api.GetConversations (Note.id note))]).

(** What [loadConversations] casts the response to. *)
Module ConversationsResponse.
Record t := { messages : option (list ConversationMessage.t) }.
End ConversationsResponse.

(** [loadConversations], lines 46-56, after its [await]; [None] is a
    falsy response. *)
Definition loadConversations_settled
    (outcome : Completion (option ConversationsResponse.t)) (s : State)
  : State * list Effect :=
  match outcome with
  | Return (Some response) =>
      match ConversationsResponse.messages response with
      | Some loaded => (setMessages (λ _, loaded) s, [])
      | None => (s, [])
      end
  | Return None => (s, [])
  | Throw _ => (s, [ConsoleLog "No existing conversations"])
  end.

(** What [handleSendMessage] casts the response to; a [null] response is
    [None], and reading [.answer] from it throws inside the [try]. *)
Module AskResponse.
Record t := { answer : option string }.
End AskResponse.

Definition fallback : string :=
  "I apologize, but I couldn't generate a response. Please try rephrasing your question.".

Definition apology : string :=
  "I'm sorry, I encountered an error while processing your question. Please try again.".

(** [handleSendMessage], lines 67-79: the part before the [await]. *)
Definition handleSendMessage (note : Note.t) (clock : Clock) (s : State)
  : State * list Effect :=
  if negb (truthy (trim (inputValue s))) || isLoading s then (s, [])
  else
    let userMessage :=
      {| ConversationMessage.id := number_to_string (now clock);
         ConversationMessage.role := user;
         ConversationMessage.content := inputValue s;
         ConversationMessage.timestamp := toISOString clock |} in
    (setIsLoading true
       (setInputValue "" (setMessages (λ prev, prev ++ [userMessage]) s)),
     [ApiCall (Api.AskQuestion (Note.id note) (inputValue s))]).

(** [handleKeyPress], lines 113-118: Enter without Shift sends. *)
Definition handleKeyPress (key : string) (shiftKey : bool) (note : Note.t)
    (clock : Clock) (s : State) : State * list Effect :=
  if bool_decide (key = "Enter") && negb shiftKey
  then handleSendMessage note clock s
  else (s, []).

(** [handleSendMessage], lines 81-110: the part after the [await]. *)
Definition handleSendMessage_settled (clock : Clock)
    (outcome : Completion (option AskResponse.t)) (s : State)
  : State * list Effect :=
  match outcome with
  | Return (Some response) =>
      let aiMessage :=
        {| ConversationMessage.id := number_to_string (now clock + 1);
           ConversationMessage.role := assistant;
           ConversationMessage.content :=
             js_or (AskResponse.answer response) fallback;
           ConversationMessage.timestamp := toISOString clock |} in
      (setIsLoading false (setMessages (λ prev, prev ++ [aiMessage]) s),
       [FocusInput])
  | Return None | Throw _ =>
      let errorMessage :=
        {| ConversationMessage.id := number_to_string (now clock + 1);
           ConversationMessage.role := assistant;
           ConversationMessage.content := apology;
           ConversationMessage.timestamp := toISOString clock |} in
      (setIsLoading false (setMessages (λ prev, prev ++ [errorMessage]) s),
       [ShowToast {| Toast.title := "Failed to get AI response";
                     Toast.description :=
                       "Please try asking your question again.";
                     Toast.destructive := true |};
        FocusInput])
  end.

(** A transcript in which the welcome message [hello] and a loaded,
    non-empty history are both present. *)
Definition coexist (hello : ConversationMessage.t)
    (loaded transcript : list ConversationMessage.t) : Prop :=
  hello ∈ transcript ∧ loaded ≠ [] ∧ loaded ⊆ transcript.

End ChatInterface.

(** ** [src/components/UploadModal.tsx], lines 254-594: [QuizInterface] *)

Module QuizInterface.

Inductive QuizState := setup | taking | results_.

Module QuizSettings.
Record t := { type : string; difficulty : string; count : N }.
End QuizSettings.

(** What the results view reads from the response of [submitAnswers]. *)
Module Results.
Record graded := { isCorrect : option bool }.
Record t := { score : option N; gradedAnswers : option (list graded) }.
End Results.

(** What [generateQuiz] casts the response to. *)
Module QuestionsResponse.
Record t := { questions : option (list Question.t) }.
End QuestionsResponse.

Record State := {
  questions : list Question.t;
  currentQuestionIndex : nat;
  answers : list Answer.t;
  selectedAnswer : string;
  isLoading : bool;
  quizState : QuizState;
  results : option Results.t;
  quizSettings : QuizSettings.t }.

Definition initial : State :=
  {| questions := []; currentQuestionIndex := 0; answers := [];
     selectedAnswer := ""; isLoading := false; quizState := setup;
     results := None;
     quizSettings := {| QuizSettings.type := "multiple_choice";
                        QuizSettings.difficulty := "medium";
                        QuizSettings.count := 5 |} |}.

Definition setIsLoading (b : bool) (s : State) : State :=
  {| questions := questions s;
     currentQuestionIndex := currentQuestionIndex s;
     answers := answers s; selectedAnswer := selectedAnswer s;
     isLoading := b; quizState := quizState s; results := results s;
     quizSettings := quizSettings s |}.

Definition setSelectedAnswer (a : string) (s : State) : State :=
  {| questions := questions s;
     currentQuestionIndex := currentQuestionIndex s;
     answers := answers s; selectedAnswer := a;
     isLoading := isLoading s; quizState := quizState s;
     results := results s; quizSettings := quizSettings s |}.

Definition setAnswers (l : list Answer.t) (s : State) : State :=
  {| questions := questions s;
     currentQuestionIndex := currentQuestionIndex s;
     answers := l; selectedAnswer := selectedAnswer s;
     isLoading := isLoading s; quizState := quizState s;
     results := results s; quizSettings := quizSettings s |}.

Definition setCurrentQuestionIndex (i : nat) (s : State) : State :=
  {| questions := questions s; currentQuestionIndex := i;
     answers := answers s; selectedAnswer := selectedAnswer s;
     isLoading := isLoading s; quizState := quizState s;
     results := results s; quizSettings := quizSettings s |}.

(** [generateQuiz], lines 292-316, before its [await]. *)
Definition generateQuiz (note : Note.t) (s : State) : State * list Effect :=
  (setIsLoading true s,
   [ApiCall (Api.GenerateQuestions (Note.id note)
               (QuizSettings.type (quizSettings s))
               (QuizSettings.count (quizSettings s))
               (QuizSettings.difficulty (quizSettings s)))]).

(** [generateQuiz] after its [await]; a [null] response is [None], and
    reading [.questions] from it throws inside the [try]. *)
Definition generateQuiz_settled
    (outcome : Completion (option QuestionsResponse.t)) (s : State)
  : State * list Effect :=
  match outcome with
  | Return (Some response) =>
      ({| questions := default [] (QuestionsResponse.questions response);
          currentQuestionIndex := 0; answers := []; selectedAnswer := "";
          isLoading := false; quizState := taking; results := results s;
          quizSettings := quizSettings s |}, [])
  | Return None | Throw _ =>
      (setIsLoading false s,
       [ShowToast {| Toast.title := "Failed to generate quiz";
                     Toast.description :=
                       "Please try again with different settings.";
                     Toast.destructive := true |}])
  end.

Definition handleAnswerSelect (answer : string) (s : State) : State :=
  setSelectedAnswer answer s.

(** [submitQuiz(finalAnswers)], lines 341-356, before its [await]. *)
Definition submitQuiz (note : Note.t) (finalAnswers : list Answer.t)
    (s : State) : State * list Effect :=
  (setIsLoading true s,
   [ApiCall (Api.SubmitAnswers (Note.id note) finalAnswers)]).

(** [submitQuiz] after its [await]. *)
Definition submitQuiz_settled (outcome : Completion (option Results.t))
    (s : State) : State * list Effect :=
  match outcome with
  | Return response =>
      ({| questions := questions s;
          currentQuestionIndex := currentQuestionIndex s;
          answers := answers s; selectedAnswer := selectedAnswer s;
          isLoading := false; quizState := results_; results := response;
          quizSettings := quizSettings s |}, [])
  | Throw _ =>
      (setIsLoading false s,
       [ShowToast {| Toast.title := "Failed to submit quiz";
                     Toast.description := "Please try again.";
                     Toast.destructive := true |}])
  end.

(** [const currentQuestion = questions[currentQuestionIndex]], line 367:
    the question the 'taking' view displays. *)
Definition currentQuestion (s : State) : option Question.t :=
  questions s !! currentQuestionIndex s.

(** [newAnswer], lines 325-328: the text of the question, not its id. *)
Definition newAnswer (q : Question.t) (selected : string) : Answer.t :=
  {| Answer.question := Question.question q; Answer.answer := selected |}.

(** [handleNextQuestion], lines 322-339.  Reading [.question] of a missing
    array element throws before any state is set. *)
Definition handleNextQuestion (note : Note.t) (s : State)
  : Completion (State * list Effect) :=
  if negb (truthy (selectedAnswer s)) then Return (s, [])
  else
    match questions s !! currentQuestionIndex s with
    | None => Throw TypeError
    | Some q =>
        let updatedAnswers := answers s ++ [newAnswer q (selectedAnswer s)] in
        let s := setAnswers updatedAnswers s in
        if (Z.of_nat (currentQuestionIndex s)
              <? Z.of_nat (length (questions s)) - 1)%Z
        then Return (setSelectedAnswer ""
                       (setCurrentQuestionIndex (currentQuestionIndex s + 1) s),
                     [])
        else Return (submitQuiz note updatedAnswers s)
    end.

(** The Next / Submit button is rendered (line 463) and not disabled
    (line 512). *)
Definition next_enabled (s : State) : bool :=
  match quizState s, currentQuestion s with
  | taking, Some _ => truthy (selectedAnswer s) && negb (isLoading s)
  | _, _ => false
  end.

(** [resetQuiz], lines 358-365. *)
Definition resetQuiz (s : State) : State :=
  {| questions := []; currentQuestionIndex := 0; answers := [];
     selectedAnswer := ""; isLoading := isLoading s; quizState := setup;
     results := None; quizSettings := quizSettings s |}.

(** The user's actions in the 'taking' view and the settling of a pending
    submission, as events. *)
Inductive Event :=
| Select (answer : string)             (* radio group / textarea change *)
| Next                                 (* the Next / Submit button *)
| SubmitSettled (outcome : Completion (option Results.t)).

(** An exception escaping an event handler leaves the state as it was. *)
Definition step (note : Note.t) (ev : Event) (s : State)
  : State * list Effect :=
  match ev with
  | Select a => (handleAnswerSelect a s, [])
  | Next =>
      match handleNextQuestion note s with
      | Return r => r
      | Throw _ => (s, [])
      end
  | SubmitSettled outcome => submitQuiz_settled outcome s
  end.

Fixpoint run (note : Note.t) (evs : list Event) (s : State)
  : State * list Effect :=
  match evs with
  | [] => (s, [])
  | ev :: evs =>
      let '(s1, effs1) := step note ev s in
      let '(s2, effs2) := run note evs s1 in
      (s2, effs1 ++ effs2)
  end.

(** Answering in turn: each answer is entered, then the button pressed. *)
Definition answer_all (given : list string) : list Event :=
  given ≫= (λ a, [Select a; Next]).

(** The question on display before each answer of [given] is entered. *)
Fixpoint shown (note : Note.t) (given : list string) (s : State)
  : list (option Question.t) :=
  match given with
  | [] => []
  | a :: given =>
      currentQuestion s :: shown note given (run note [Select a; Next] s).1
  end.

(** The state [generateQuiz] leaves when it resolved with [generated]. *)
Definition started (generated : list Question.t) (s : State) : State :=
  (generateQuiz_settled
     (Return (Some {| QuestionsResponse.questions := Some generated |}))
     s).1.

(** The [answers] arrays handed to [apiClient.submitAnswers]. *)
Definition submitted (effs : list Effect) : list (string * list Answer.t) :=
  omap (λ e, match e with
             | ApiCall (Api.SubmitAnswers noteId l) => Some (noteId, l)
             | _ => None
             end) effs.

End QuizInterface.

(** ** Sample data, for the concrete instances below *)

Module Samples.





Definition notes_txt : File.t :=
  {| File.name := "a.txt"; File.size := 1; File.type := "text/plain" |}.

Definition huge_pdf : File.t :=
  {| File.name := "scan.pdf"; File.size := 20 * 1024 * 1024 + 1;
     File.type := "application/pdf" |}.

Definition picture : File.t :=
  {| File.name := "cat.png"; File.size := 1024; File.type := "image/png" |}.

Definition chosen : UploadModal.State :=
  {| UploadModal.file := Some notes_txt; UploadModal.isUploading := false;
     UploadModal.uploadProgress := 0;
     UploadModal.uploadStatus := UploadModal.idle |}.

Definition note : Note.t :=
  {| Note.id := "n1"; Note.note_name := "biology";
     Note.title := Some "Cells"; Note.filename := Some "cells.pdf";
     Note.summary := None; Note.content := None; Note.uploadedAt := None;
     Note.fileSize := None; Note.fileType := None |}.

Definition clock : ChatInterface.Clock :=
  {| ChatInterface.now := 1700000000000;
     ChatInterface.toISOString := "2023-11-14T22:13:20.000Z" |}.

Definition earlier : ConversationMessage.t :=
  {| ConversationMessage.id := "m1"; ConversationMessage.role := user;
     ConversationMessage.content := "What is a cell?";
     ConversationMessage.timestamp := "2023-11-13T10:00:00.000Z" |}.

Definition blank : ChatInterface.State :=
  {| ChatInterface.messages := []; ChatInterface.inputValue := " ";
     ChatInterface.isLoading := false |}.

Definition asking : ChatInterface.State :=
  {| ChatInterface.messages := []; ChatInterface.inputValue := "Why?";
     ChatInterface.isLoading := false |}.

Definition question (text : string) : Question.t :=
  {| Question.id := "q"; Question.noteId := "n1";
     Question.question := text; Question.type := short_answer;
     Question.difficulty := medium; Question.options := None;
     Question.correctAnswer := None; Question.createdAt := "" |}.

Definition three_questions : list Question.t :=
  [question "Q0"; question "Q1"; question "Q2"].

End Samples.

(** ** [src/components/UploadModal.tsx]: a whole attempt *)

Module UploadSession.
Import UploadModal.

(** The attempt after a sequence of events, and the effects fired on the
    way, in order. *)
Fixpoint after (evs : list Event) (a : Attempt) : Attempt * list Effect :=
  match evs with
  | [] => (a, [])
  | ev :: evs =>
      let '(a1, effs1) := step ev a in
      let '(a2, effs2) := after evs a1 in
      (a2, effs1 ++ effs2)
  end.

(** The size and type checks of [handleFileSelect], lines 38 and 54. *)
Definition valid (f : File.t) : bool :=
  (File.size f <=? maxSize) && includes allowedTypes (File.type f).

End UploadSession.

(** ** [src/components/ChatInterface.tsx]: the component over time *)

Module ChatSession.
Import ChatInterface.

(** The component state together with the number of [askQuestion]
    promises that have been created and have not settled yet. *)
Record Session := { view : State; outstanding : nat }.

Inductive Event :=
| Typed (v : string)                  (* [onChange], suggested question *)
| Send (clock : Clock)                (* the send button *)
| KeyPress (key : string) (shiftKey : bool) (clock : Clock)
| AskSettled (clock : Clock) (outcome : Completion (option AskResponse.t))
| LoadSettled (outcome : Completion (option ConversationsResponse.t)).

Definition asks (effs : list Effect) : nat :=
  length (filter (λ e, is_ApiCall e = true) effs).

(** A promise can only settle if it exists. *)
Definition step (note : Note.t) (ev : Event) (x : Session)
  : Session * list Effect :=
  match ev with
  | Typed v => ({| view := setInputValue v (view x);
                   outstanding := outstanding x |}, [])
  | Send clock =>
      let '(s, effs) := handleSendMessage note clock (view x) in
      ({| view := s; outstanding := outstanding x + asks effs |}, effs)
  | KeyPress key shiftKey clock =>
      let '(s, effs) := handleKeyPress key shiftKey note clock (view x) in
      ({| view := s; outstanding := outstanding x + asks effs |}, effs)
  | AskSettled clock outcome =>
      match outstanding x with
      | O => (x, [])
      | S n =>
          let '(s, effs) := handleSendMessage_settled clock outcome (view x) in
          ({| view := s; outstanding := n |}, effs)
      end
  | LoadSettled outcome =>
      let '(s, effs) := loadConversations_settled outcome (view x) in
      ({| view := s; outstanding := outstanding x |}, effs)
  end.

Fixpoint run (note : Note.t) (evs : list Event) (x : Session)
  : Session * list Effect :=
  match evs with
  | [] => (x, [])
  | ev :: evs =>
      let '(x1, effs1) := step note ev x in
      let '(x2, effs2) := run note evs x1 in
      (x2, effs1 ++ effs2)
  end.

(** The component right after its mount effect. *)
Definition mounted (note : Note.t) (clock : Clock) : Session :=
  {| view := (mount note clock initial).1; outstanding := 0 |}.

Definition is_LoadSettled (ev : Event) : bool :=
  match ev with LoadSettled _ => true | _ => false end.

(** The events in which a promise settles. *)
Definition is_settlement (ev : Event) : bool :=
  match ev with
  | AskSettled _ _ | LoadSettled _ => true
  | Typed _ | Send _ | KeyPress _ _ _ => false
  end.

End ChatSession.

(** ** [src/components/UploadModal.tsx], lines 524-576: the results view *)

Module QuizResults.
Import QuizInterface.

(** [(results as any).score || 0] *)
Definition score (r : Results.t) : N := default 0 (Results.score r).

(** [(results as any).gradedAnswers?.[index]?.isCorrect || false] *)
Definition isCorrect (r : Results.t) (index : nat) : bool :=
  match Results.gradedAnswers r with
  | None => false
  | Some graded =>
      match graded !! index with
      | None => false
      | Some g => default false (Results.isCorrect g)
      end
  end.

(** One entry of the review list, lines 554-573. *)
Record Row := {
  correct : bool;
  questionText : string;
  yourAnswer : string;
  correctAnswerShown : option string }.

(** [!isCorrect && question.correctAnswer && ...] *)
Definition correction (ok : bool) (q : Question.t) : option string :=
  if negb ok && truthy_opt (Question.correctAnswer q)
  then Question.correctAnswer q else None.

Definition row (r : Results.t) (index : nat) (q : Question.t)
    (answer : Answer.t) : Row :=
  {| correct := isCorrect r index;
     questionText := Question.question q;
     yourAnswer := Answer.answer answer;
     correctAnswerShown := correction (isCorrect r index) q |}.

(** [answers.map((answer, index) => ...)]: [questions[index]] may be
    missing, and reading [.question] from it throws. *)
Fixpoint review_from (questions : list Question.t) (r : Results.t)
    (index : nat) (answers : list Answer.t) : Completion (list Row) :=
  match answers with
  | [] => Return []
  | answer :: answers =>
      match questions !! index with
      | None => Throw TypeError
      | Some q =>
          match review_from questions r (S index) answers with
          | Return rows => Return (row r index q answer :: rows)
          | Throw e => Throw e
          end
      end
  end.

(** What the component returns, lines 370, 463, 524 and 593.  The
    percentage of line 527 is a rounded floating-point quotient and is
    left out of the results view. *)
Inductive View :=
| SetupView
| TakingView (q : Question.t)
| ResultsView (score : N) (totalQuestions : nat) (rows : list Row)
| LoadingView
| RenderError.               (* the render threw *)

Definition render (s : State) : View :=
  match quizState s with
  | setup => SetupView
  | taking =>
      match currentQuestion s with
      | Some q => TakingView q
      | None => LoadingView
      end
  | results_ =>
      match results s with
      | Some r =>
          match review_from (questions s) r 0 (answers s) with
          | Return rows => ResultsView (score r) (length (questions s)) rows
          | Throw _ => RenderError
          end
      | None => LoadingView
      end
  end.

(** A quiz on [generated] is consistent when its index is in range and
    every accumulated answer carries the text of the question it was given
    to: question [i], or the last question for the entries past it. *)
Definition consistent (generated : list Question.t) (s : State) : Prop :=
  questions s = generated
  ∧ (currentQuestionIndex s < length generated)%nat
  ∧ ((length (answers s) = currentQuestionIndex s
      ∨ (S (currentQuestionIndex s) = length generated
         ∧ currentQuestionIndex s ≤ length (answers s)))%nat)
  ∧ ∀ i e, answers s !! i = Some e →
      ∃ q, generated !! (i `min` (length generated - 1))%nat = Some q
           ∧ Answer.question e = Question.question q.

(** The label of the button of the 'taking' view, line 515. *)
Definition button_label (s : State) : string :=
  if bool_decide (Z.of_nat (currentQuestionIndex s)
                  = (Z.of_nat (length (questions s)) - 1)%Z)
  then "Submit Quiz" else "Next Question".

End QuizResults.

(** ** [src/components/NotesGrid.tsx], lines 1-195: [NotesGrid] *)

Module NotesGrid.

Record State := { notes : list Note.t; isLoading : bool }.

Definition initial : State := {| notes := []; isLoading := true |}.

(** The mount effect and [loadNotes], lines 28-34, before the [await]. *)
Definition loadNotes (s : State) : State * list Effect :=
  (s, [ApiCall Api.GetNotes]).

(** [loadNotes] after its [await]; a falsy response is [None]. *)
Definition loadNotes_settled (outcome : Completion (option (list Note.t)))
    (s : State) : State * list Effect :=
  match outcome with
  | Return loaded => ({| notes := default [] loaded; isLoading := false |}, [])
  | Throw _ =>
      ({| notes := notes s; isLoading := false |},
       [ShowToast {| Toast.title := "Failed to load notes";
                     Toast.description := "Please try refreshing the page.";
                     Toast.destructive := true |}])
  end.

(** A running [handleDeleteNote]: the id it was called with and the
    [notes] array of the render it was created in. *)
Record Deletion := { noteId : string; captured : list Note.t }.

(** [handleDeleteNote(noteId, e)], lines 47-50, before the [await]. *)
Definition handleDeleteNote (id : string) (s : State)
  : Deletion * list Effect :=
  ({| noteId := id; captured := notes s |}, [ApiCall (Api.DeleteNote id)]).

(** [handleDeleteNote] after its [await], lines 51-62. *)
Definition handleDeleteNote_settled (d : Deletion) (outcome : Completion unit)
    (s : State) : State * list Effect :=
  match outcome with
  | Return _ =>
      ({| notes := filter (λ note, Note.id note ≠ noteId d) (captured d);
          isLoading := isLoading s |},
       [ShowToast {| Toast.title := "Note deleted";
                     Toast.description :=
                       "Your note has been removed successfully.";
                     Toast.destructive := false |}])
  | Throw _ =>
      (s, [ShowToast {| Toast.title := "Failed to delete note";
                        Toast.description := "Please try again.";
                        Toast.destructive := true |}])
  end.

(** [a || b] where both may be missing. *)
Definition js_or_opt (a b : option string) : option string :=
  if truthy_opt a then a else b.

(** [note.title || note.filename || note.note_name], line 160. *)
Definition card_title (note : Note.t) : string :=
  js_or (js_or_opt (Note.title note) (Note.filename note)) (Note.note_name note).

End NotesGrid.

(** ** [src/components/NotesGrid.tsx], lines 196-246: [Index] *)

Module Index.

Record State := { isAuthenticated : bool; isLoading : bool }.

Definition initial : State := {| isAuthenticated := false; isLoading := true |}.

(** [checkAuth], lines 207-210. *)
Definition checkAuth (w : Api.World) (s : State) : State :=
  {| isAuthenticated := Api.isAuthenticated w; isLoading := false |}.

Definition handleAuthSuccess (s : State) : State :=
  {| isAuthenticated := true; isLoading := isLoading s |}.

Definition handleLogout (s : State) : State :=
  {| isAuthenticated := false; isLoading := isLoading s |}.

Inductive Screen := Spinner | Dashboard | AuthCard.

Definition render (s : State) : Screen :=
  if isLoading s then Spinner
  else if isAuthenticated s then Dashboard else AuthCard.

(** A page load: the module-level [new LearnWithAIClient()] reads
    [localStorage], then [Index] mounts and runs [checkAuth]. *)
Definition load (ls : gmap string string) : Api.World * State :=
  (Api.constructor ls, checkAuth (Api.constructor ls) initial).

End Index.

(** ** [src/components/StudyDashboard.tsx] *)

Module StudyDashboard.

Inductive ViewMode := dashboard | chat | quiz.

Record State := {
  viewMode : ViewMode;
  selectedNote : option Note.t;
  isUploadModalOpen : bool;
  refreshKey : N }.

Definition initial : State :=
  {| viewMode := dashboard; selectedNote := None;
     isUploadModalOpen := false; refreshKey := 0 |}.

Definition handleNoteSelect (note : Note.t) (s : State) : State :=
  {| viewMode := viewMode s; selectedNote := Some note;
     isUploadModalOpen := isUploadModalOpen s; refreshKey := refreshKey s |}.

Definition handleChatWithNote (note : Note.t) (s : State) : State :=
  {| viewMode := chat; selectedNote := Some note;
     isUploadModalOpen := isUploadModalOpen s; refreshKey := refreshKey s |}.

Definition handleQuizWithNote (note : Note.t) (s : State) : State :=
  {| viewMode := quiz; selectedNote := Some note;
     isUploadModalOpen := isUploadModalOpen s; refreshKey := refreshKey s |}.

Definition handleBackToDashboard (s : State) : State :=
  {| viewMode := dashboard; selectedNote := None;
     isUploadModalOpen := isUploadModalOpen s; refreshKey := refreshKey s |}.

Definition handleUploadSuccess (s : State) : State * list Effect :=
  ({| viewMode := viewMode s; selectedNote := selectedNote s;
      isUploadModalOpen := isUploadModalOpen s;
      refreshKey := refreshKey s + 1 |},
   [ShowToast {| Toast.title := "Note uploaded successfully!";
                 Toast.description :=
                   "Your study material is ready for AI-powered learning.";
                 Toast.destructive := false |}]).

Definition setIsUploadModalOpen (b : bool) (s : State) : State :=
  {| viewMode := viewMode s; selectedNote := selectedNote s;
     isUploadModalOpen := b; refreshKey := refreshKey s |}.

(** [handleLogout], lines 60-67: [apiClient.logout()], then the [onLogout]
    prop, which is [Index]'s [handleLogout], then a toast. *)
Definition handleLogout (w : Api.World) (page : Index.State)
  : Api.World * Index.State * list Effect :=
  (Api.logout w, Index.handleLogout page,
   [ShowToast {| Toast.title := "Logged out";
                 Toast.description := "Come back soon to continue learning!";
                 Toast.destructive := false |}]).

(** What [<main>] shows, lines 131-208. *)
Inductive Main :=
| NotesMain (key : N)
| ChatMain (note : Note.t)
| QuizMain (note : Note.t)
| EmptyMain.

Definition render (s : State) : Main :=
  match viewMode s, selectedNote s with
  | dashboard, _ => NotesMain (refreshKey s)
  | chat, Some note => ChatMain note
  | quiz, Some note => QuizMain note
  | _, None => EmptyMain
  end.

(** The header shows the Chat and Quiz buttons, line 100. *)
Definition shortcuts_shown (s : State) : bool :=
  match viewMode s, selectedNote s with
  | dashboard, Some _ => true
  | _, _ => false
  end.

Inductive Event :=
| NoteSelect (note : Note.t)      (* a card of the grid is clicked *)
| ChatClick                       (* header button, on the selected note *)
| QuizClick
| Back
| UploadClick                     (* [onUploadClick] *)
| UploadClose                     (* the modal's [onClose] *)
| UploadSuccess.                  (* the modal's [onSuccess] *)

(** A header button is only there when [shortcuts_shown]; the back button
    only outside the dashboard view, line 75. *)
Definition step (ev : Event) (s : State) : State :=
  match ev with
  | NoteSelect note =>
      match viewMode s with
      | dashboard => handleNoteSelect note s
      | _ => s
      end
  | ChatClick =>
      match viewMode s, selectedNote s with
      | dashboard, Some note => handleChatWithNote note s
      | _, _ => s
      end
  | QuizClick =>
      match viewMode s, selectedNote s with
      | dashboard, Some note => handleQuizWithNote note s
      | _, _ => s
      end
  | Back =>
      match viewMode s with
      | dashboard => s
      | _ => handleBackToDashboard s
      end
  | UploadClick =>
      match viewMode s with
      | dashboard => setIsUploadModalOpen true s
      | _ => s
      end
  | UploadClose => setIsUploadModalOpen false s
  | UploadSuccess => (handleUploadSuccess s).1
  end.

Definition run (evs : list Event) (s : State) : State :=
  foldl (λ s ev, step ev s) s evs.

Definition is_UploadSuccess (ev : Event) : bool :=
  match ev with UploadSuccess => true | _ => false end.

Definition uploads (evs : list Event) : nat :=
  length (filter (λ ev, is_UploadSuccess ev = true) evs).

End StudyDashboard.

(** ** More sample data *)

Module MoreSamples.








(** The string with the given UTF-8 bytes. *)
Definition utf8 (bytes : list N) : string :=
  foldr (λ b s, String (Ascii.ascii_of_N b) s) EmptyString bytes.

(** U+3000, U+2003, U+FEFF, U+2028 and U+00A0: white space outside
    ASCII. *)
Definition wide_blank_text : string :=
  utf8 [227; 128; 128;  226; 128; 131;  239; 187; 191;  226; 128; 168;
        194; 160].

Definition wide_blank : ChatInterface.State :=
  {| ChatInterface.messages := [];
     ChatInterface.inputValue := wide_blank_text;
     ChatInterface.isLoading := false |}.

(** [Why?] between U+3000 and U+2003, LF. *)
Definition padded_text : string :=
  utf8 [227; 128; 128] +:+ "Why?" +:+ utf8 [226; 128; 131; 10].

(** U+2014 (an em dash, E2 80 94) is not white space, although its first
    two bytes are those of U+2003. *)
Definition dash_text : string := utf8 [226; 128; 148].

Definition exactly_20MB : File.t :=
  {| File.name := "big.pdf"; File.size := 20 * 1024 * 1024;
     File.type := "application/pdf" |}.

Definition note_named (id : string) : Note.t :=
  {| Note.id := id; Note.note_name := id; Note.title := None;
     Note.filename := None; Note.summary := None; Note.content := None;
     Note.uploadedAt := None; Note.fileSize := None; Note.fileType := None |}.

Definition graded_all_right : QuizInterface.Results.t :=
  {| QuizInterface.Results.score := Some 3;
     QuizInterface.Results.gradedAnswers := None |}.

End MoreSamples.

(** * Properties *)

(** ** The gateway client *)

Section ApiFacts.
Import Api.

Lemma request_issues {T} endpoint options (net : Network T) w :
  fetched (request endpoint options net w).2
    = fetched w ++ [request_call endpoint options w]
  ∧ token (request endpoint options net w).2 = token w
  ∧ localStorage (request endpoint options net w).2 = localStorage w.
Proof.
  unfold request. destruct (net _) as [|r]; [done|].
  by destruct (negb (ok r)).
Qed.

Lemma uploadNote_issues {T} file (net : Network T) w :
  fetched (uploadNote file net w).2 = fetched w ++ [uploadNote_call file w]
  ∧ token (uploadNote file net w).2 = token w
  ∧ localStorage (uploadNote file net w).2 = localStorage w.
Proof.
  unfold uploadNote. destruct (net _) as [|r]; [done|].
  by destruct (negb (ok r)).
Qed.

(** Without a token, [request] adds no [Authorization] header of its own. *)
Lemma request_call_anonymous endpoint options w :
  truthy_value (token w) = false →
  headers options !! "Authorization" = None →
  Authorization (request_call endpoint options w) = None.
Proof.
  intros Htok Hopt. unfold Authorization, request_call, request_headers.
  cbn. rewrite Htok. apply lookup_union_None. split; [done|].
  by apply lookup_singleton_ne.
Qed.

(** With a token, [request] sends it as a bearer credential. *)
Lemma request_call_bearer endpoint options w :
  truthy_value (token w) = true →
  Authorization (request_call endpoint options w) = Some (bearer (token w)).
Proof.
  intros Htok. unfold Authorization, request_call, request_headers.
  cbn. rewrite Htok. apply lookup_insert_eq.
Qed.

Lemma logout_token w : token (logout w) = VNull.
Proof. reflexivity. Qed.

Lemma logout_silent w : fetched (logout w) = fetched w.
Proof. reflexivity. Qed.

Lemma logout_storage w : localStorage (logout w) !! "authToken" = None.
Proof. apply lookup_delete_eq. Qed.

(** Without a token, each protected method issues one [fetch] and leaves
    the token alone; the [fetch] of [uploadNote] carries
    [Authorization: Bearer null], that of every other method carries no
    [Authorization] header. *)
Lemma perform_anonymous {T} (c : Call) (net : Network T) w :
  token w = VNull →
  ∃ call, fetched (perform c net w).2 = fetched w ++ [call]
          ∧ token (perform c net w).2 = VNull
          ∧ Authorization call
              = match c with
                | UploadNote _ => Some "Bearer null"
                | _ => None
                end.
Proof.
  intros Htok.
  assert (truthy_value (token w) = false) as Hfalsy by (by rewrite Htok).
  destruct c; cbn [perform];
    unfold getNotes, getNote, deleteNote, askQuestion, generateQuestions,
      submitAnswers, getConversations, getGradedQuestion;
    eexists; (split; [|split]);
    try first [apply uploadNote_issues | apply request_issues];
    try (etrans; [first [apply uploadNote_issues | apply request_issues]
                 | exact Htok]);
    try (by apply request_call_anonymous).
  unfold Authorization, uploadNote_call. cbn. by rewrite Htok.
Qed.

Lemma perform_all_anonymous {T} (cs : list Call) (net : Network T) :
  ∀ w, token w = VNull →
    ∃ calls,
      fetched (perform_all cs net w) = fetched w ++ calls
      ∧ Forall2 (λ c call,
                   Authorization call
                     = match c with
                       | UploadNote _ => Some "Bearer null"
                       | _ => None
                       end) cs calls.
Proof.
  induction cs as [|c cs IH]; intros w Htok; cbn [perform_all].
  - exists []. by rewrite app_nil_r.
  - destruct (perform_anonymous c net w Htok) as (call & Hf & Ht & Ha).
    destruct (IH _ Ht) as (calls & Hfs & Hall).
    exists (call :: calls). split; [|by constructor].
    by rewrite Hfs, Hf, <- app_assoc.
Qed.

(** C1 (the code departs from the claim): [logout] clears the token
    without any [fetch] and [isAuthenticated] then answers [false]; of the
    protected calls that follow, those routed through [request] carry no
    [Authorization] header, but every [uploadNote] still carries one, with
    the value [Bearer null]. *)
Theorem C1_after_logout_uploadNote_still_sends_Authorization :
  ∀ T (w : World) (cs : list Call) (net : Network T),
    token (logout w) = VNull
    ∧ fetched (logout w) = fetched w
    ∧ isAuthenticated (logout w) = false
    ∧ ∃ calls,
        fetched (perform_all cs net (logout w)) = fetched w ++ calls
        ∧ Forall2 (λ c call,
                     Authorization call
                       = match c with
                         | UploadNote _ => Some "Bearer null"
                         | _ => None
                         end) cs calls.
Proof.
  intros T w cs net. split; [done|]. split; [done|]. split; [done|].
  rewrite <- (logout_silent w).
  by apply perform_all_anonymous.
Qed.



(** [String(v)] and truthiness on a few values. *)
Example to_String_examples :
  to_String (VArray [VNumber "1"; VNull; VArray [VString "a"; VBool true]])
    = "1,,a,true"
  ∧ to_String (VObject [("token", VString "abc")]) = "[object Object]"
  ∧ bearer VNull = "Bearer null"
  ∧ bearer VUndefined = "Bearer undefined"
  ∧ truthy_value (VNumber "0") = false
  ∧ truthy_value (VArray []) = true.
Proof. by repeat split. Qed.




(** The defect at work: with a token stored, then [logout], a [getNotes]
    goes out without credentials and an [uploadNote] goes out with
    [Bearer null]. *)
Example logout_then_getNotes_then_uploadNote :
  Authorization
    <$> fetched (perform_all [GetNotes; UploadNote Samples.notes_txt]
                   (λ _, Unreachable : FetchOutcome unit)
                   (logout (constructor {[ "authToken" := "abc" ]})))
  = [None; Some "Bearer null"].
Proof. reflexivity. Qed.




End ApiFacts.

(** ** The upload flow *)

Section UploadFacts.
Import UploadModal.

(** C5: a file larger than 20 MB, and a file whose MIME type is not one
    of the four allowed ones, is turned away by [handleFileSelect]: the
    component state is left exactly as it was (so no file is selected
    and the status stays [idle] when that was the case before), the only
    effect is one toast, and no gateway call is made. *)
Theorem C5_invalid_file_rejected_locally :
  ∀ (selectedFile : File.t) (s : State),
    20 * 1024 * 1024 < File.size selectedFile
    ∨ (File.type selectedFile ∉ allowedTypes) →
    (handleFileSelect selectedFile s).1 = s
    ∧ (file s = None → file (handleFileSelect selectedFile s).1 = None)
    ∧ (uploadStatus s = idle →
       uploadStatus (handleFileSelect selectedFile s).1 = idle)
    ∧ (∃ t, (handleFileSelect selectedFile s).2 = [ShowToast t])
    ∧ filter (λ e, is_ApiCall e = true) (handleFileSelect selectedFile s).2 = [].
Proof.
  intros f s H. unfold handleFileSelect.
  destruct (maxSize <? File.size f) eqn:Hsize.
  { cbn. repeat split; eauto. }
  destruct H as [H|H].
  { apply N.ltb_ge in Hsize. unfold maxSize in Hsize. lia. }
  unfold includes. rewrite bool_decide_eq_false_2 by done.
  cbn. repeat split; eauto.
Qed.

Lemma C5_witness :
  20 * 1024 * 1024 < File.size Samples.huge_pdf
  ∧ (handleFileSelect Samples.huge_pdf initial).1 = initial
  ∧ (File.type Samples.picture ∉ allowedTypes)
  ∧ (handleFileSelect Samples.picture initial).1 = initial.
Proof.
  assert (File.type Samples.picture ∉ allowedTypes) as Hpng.
  { intros H. repeat (apply elem_of_cons in H as [H|H]; [discriminate H|]).
    by apply elem_of_nil in H. }
  split; [reflexivity|]. split; [|split; [exact Hpng|]].
  - apply (C5_invalid_file_rejected_locally Samples.huge_pdf initial).
    left. reflexivity.
  - apply (C5_invalid_file_rejected_locally Samples.picture initial).
    right. exact Hpng.
Defined.

Lemma handleUpload_running s f :
  file s = Some f → running (handleUpload s).1.
Proof.
  intros Hf. unfold handleUpload. rewrite Hf.
  repeat split. unfold progress. cbn. lia.
Qed.

Lemma step_finished ev a : finished a → (step ev a).1 = a.
Proof.
  intros [Hw Hi]. destruct ev; cbn; [by rewrite Hi | by rewrite Hw].
Qed.

Lemma step_running ev a :
  running a →
  progress a ≤ progress (step ev a).1
  ∧ match ev with
    | Tick => running (step ev a).1
    | Settled (Return _) =>
        finished (step ev a).1 ∧ progress (step ev a).1 = 100
        ∧ uploadStatus (ui (step ev a).1) = success
    | Settled (Throw _) =>
        finished (step ev a).1 ∧ progress (step ev a).1 = progress a
    end.
Proof.
  intros (Hw & Hi & Hp). unfold progress in *.
  destruct ev as [|[u|e]]; cbn; rewrite ?Hi, ?Hw; cbn.
  - split; [lia|]. repeat split; try done. unfold progress. cbn. lia.
  - split; [lia|]. by repeat split.
  - split; [lia|]. by repeat split.
Qed.

Lemma trace_finished a evs b :
  finished a → b ∈ trace a evs → b = a.
Proof.
  intros Hfin. induction evs as [|ev evs IH]; cbn.
  - by intros ->%list_elem_of_singleton.
  - rewrite step_finished by done.
    intros [->|Hin]%elem_of_cons; [done | by apply IH].
Qed.

Lemma trace_lookup a evs i b :
  trace a evs !! i = Some b → drop i (trace a evs) = trace b (drop i evs).
Proof.
  revert a i. induction evs as [|ev evs IH]; intros a i.
  - destruct i as [|i]; cbn; [by intros [= ->] | by destruct i].
  - destruct i as [|i]; cbn; [by intros [= ->] | apply IH].
Qed.

(** From a running attempt the progress never drops below its value. *)
Lemma trace_running_ge a evs b :
  running a → b ∈ trace a evs → progress a ≤ progress b.
Proof.
  revert a. induction evs as [|ev evs IH]; intros a Hrun; cbn.
  - intros ->%list_elem_of_singleton. lia.
  - intros [->|Hin]%elem_of_cons; [lia|].
    destruct (step_running ev a Hrun) as [Hle Hcase].
    destruct ev as [|[u|e]].
    + specialize (IH _ Hcase Hin). lia.
    + destruct Hcase as (Hfin & _ & _).
      by rewrite (trace_finished _ _ _ Hfin Hin).
    + destruct Hcase as (Hfin & _).
      by rewrite (trace_finished _ _ _ Hfin Hin).
Qed.

Lemma trace_ge a evs b :
  running a ∨ finished a → b ∈ trace a evs → progress a ≤ progress b.
Proof.
  intros [Hrun|Hfin] Hin.
  - by eapply trace_running_ge.
  - rewrite (trace_finished _ _ _ Hfin Hin). lia.
Qed.

(** Every state of a trace is running or finished, a running one has
    progress at most 90, and one with progress 100 comes after a
    successful settlement. *)
Lemma trace_running_inv a evs i b :
  running a → trace a evs !! i = Some b →
  (running b ∨ finished b)
  ∧ (progress b = 100 →
     uploadStatus (ui b) = success
     ∧ ∃ k u, (k < i)%nat ∧ evs !! k = Some (Settled (Return u))).
Proof.
  revert a i. induction evs as [|ev evs IH]; intros a i Hrun.
  - destruct i as [|i]; cbn; [|by destruct i].
    intros [= <-]. split; [by left|].
    destruct Hrun as (_ & _ & Hp). lia.
  - destruct i as [|i]; cbn.
    { intros [= <-]. split; [by left|].
      destruct Hrun as (_ & _ & Hp). lia. }
    intros Hb. destruct (step_running ev a Hrun) as [Hle Hcase].
    destruct ev as [|[u|e]].
    + destruct (IH _ _ Hcase Hb) as [Hrf H100]. split; [done|].
      intros Hp. destruct (H100 Hp) as (Hs & k & u & Hk & Hev).
      split; [done|]. exists (S k), u. split; [lia | done].
    + destruct Hcase as (Hfin & Hp100 & Hs).
      assert (b = (step (Settled (Return u)) a).1) as ->.
      { eapply trace_finished; [done|]. by eapply list_elem_of_lookup_2. }
      split; [by right|]. intros _. split; [done|].
      exists 0%nat, u. split; [lia | done].
    + destruct Hcase as (Hfin & Hpeq).
      assert (b = (step (Settled (Throw e)) a).1) as ->.
      { eapply trace_finished; [done|]. by eapply list_elem_of_lookup_2. }
      split; [by right|]. intros Hp. rewrite Hpeq in Hp.
      destruct Hrun as (_ & _ & Hp90). lia.
Qed.

(** C6: along an upload attempt (from the start of [handleUpload] with a
    file chosen, through any number of interval ticks and the settling of
    the upload promise) the progress value never decreases; it is at
    most 90 as long as the promise is pending; and it is 100 only in a
    state reached after the promise settled successfully. *)
Theorem C6_progress_monotone_capped_then_100 :
  ∀ (s : State) (f : File.t) (evs : list Event),
    file s = Some f →
    let tr := trace (handleUpload s).1 evs in
    (∀ i j a b, (i ≤ j)%nat → tr !! i = Some a → tr !! j = Some b →
                progress a ≤ progress b)
    ∧ (∀ a, a ∈ tr → awaiting a = true → progress a ≤ 90)
    ∧ (∀ i a, tr !! i = Some a → progress a = 100 →
              awaiting a = false ∧ uploadStatus (ui a) = success
              ∧ ∃ k u, (k < i)%nat ∧ evs !! k = Some (Settled (Return u))).
Proof.
  intros s f evs Hf tr.
  pose proof (handleUpload_running s f Hf) as Hrun.
  split; [|split].
  - intros i j a b Hij Ha Hb.
    destruct (trace_running_inv _ _ _ _ Hrun Ha) as [Hrf _].
    apply (trace_ge a (drop i evs)); [done|].
    rewrite <- (trace_lookup _ _ _ _ Ha).
    apply list_elem_of_lookup. exists (j - i)%nat.
    rewrite lookup_drop. by replace (i + (j - i))%nat with j by lia.
  - intros a [i Ha]%list_elem_of_lookup Hw.
    destruct (trace_running_inv _ _ _ _ Hrun Ha) as [[Hr|Hfi] _].
    + by destruct Hr as (_ & _ & Hp).
    + destruct Hfi as [Hw' _]. congruence.
  - intros i a Ha Hp.
    destruct (trace_running_inv _ _ _ _ Hrun Ha) as [Hrf H100].
    destruct (H100 Hp) as [Hs Hex]. split; [|done].
    destruct Hrf as [(_ & _ & Hp90)|[Hw _]]; [lia | done].
Qed.

Lemma C6_witness :
  file Samples.chosen = Some Samples.notes_txt
  ∧ (let tr := trace (handleUpload Samples.chosen).1
                 [Tick; Tick; Settled (Return ())] in
     (∀ i j a b, (i ≤ j)%nat → tr !! i = Some a → tr !! j = Some b →
                 progress a ≤ progress b)
     ∧ (∀ a, a ∈ tr → awaiting a = true → progress a ≤ 90)
     ∧ (∀ i a, tr !! i = Some a → progress a = 100 →
               awaiting a = false ∧ uploadStatus (ui a) = success
               ∧ ∃ k u, (k < i)%nat
                        ∧ [Tick; Tick; Settled (Return ())] !! k
                            = Some (Settled (Return u)))).
Proof.
  split; [reflexivity|].
  apply (C6_progress_monotone_capped_then_100
           Samples.chosen Samples.notes_txt
           [Tick; Tick; Settled (Return ())]).
  reflexivity.
Defined.

End UploadFacts.

(** ** The chat flow *)

Section ChatFacts.
Import ChatInterface ChatSession.

Lemma truthy_true (s : string) : truthy s = true ↔ s ≠ "".
Proof. destruct s; cbn; split; congruence. Qed.

(** A blank or concurrent send is a no-op. *)
Lemma handleSendMessage_blocked note clock s :
  trim (inputValue s) = "" ∨ isLoading s = true →
  handleSendMessage note clock s = (s, []).
Proof.
  intros [H|H]; unfold handleSendMessage; rewrite H; [done|].
  by rewrite orb_true_r.
Qed.

(** The settled half of a send appends exactly one assistant message. *)
Lemma handleSendMessage_settled_appends clock outcome s :
  ∃ a, messages (handleSendMessage_settled clock outcome s).1
         = messages s ++ [a]
       ∧ ConversationMessage.role a = assistant
       ∧ ConversationMessage.content a
           = match outcome with
             | Return (Some response) =>
                 js_or (AskResponse.answer response) fallback
             | _ => apology
             end
       ∧ isLoading (handleSendMessage_settled clock outcome s).1 = false.
Proof. destruct outcome as [[r|]|e]; cbn; eauto. Qed.

(** C4 as stated fails: an input that is not empty but blank is not sent,
    and the transcript does not grow. *)
Lemma C4_counterexample_blank_input :
  inputValue Samples.blank ≠ ""
  ∧ handleSendMessage Samples.note Samples.clock Samples.blank
      = (Samples.blank, [])
  ∧ length (messages
              (handleSendMessage Samples.note Samples.clock Samples.blank).1)
      ≠ (length (messages Samples.blank) + 1)%nat.
Proof. split; [done|]. split; [reflexivity|]. vm_compute. lia. Qed.

Lemma session_run_cons note ev evs x :
  (run note (ev :: evs) x).1 = (run note evs (step note ev x).1).1.
Proof.
  change (run note (ev :: evs) x)
    with (let '(x1, effs1) := step note ev x in
          let '(x2, effs2) := run note evs x1 in
          (x2, effs1 ++ effs2)).
  destruct (step note ev x) as [x1 effs1]. cbn [fst].
  by destruct (run note evs x1) as [x2 effs2].
Qed.

Lemma session_run_app note evs evs' x :
  (run note (evs ++ evs') x).1 = (run note evs' (run note evs x).1).1.
Proof.
  revert x. induction evs as [|ev evs IH]; intros x; [done|].
  change ((ev :: evs) ++ evs') with (ev :: (evs ++ evs')).
  by rewrite !session_run_cons, IH.
Qed.

(** While a request is outstanding, nothing but a settling promise
    touches the transcript: typing only changes the input, and the send
    button and the Enter key are blocked. *)
Lemma step_unsettled note ev x :
  is_settlement ev = false → isLoading (view x) = true →
  messages (view (step note ev x).1) = messages (view x)
  ∧ isLoading (view (step note ev x).1) = true
  ∧ outstanding (step note ev x).1 = outstanding x.
Proof.
  intros Hev Hload.
  destruct ev as [v|clock|key shift clock|clock o|o]; try done; cbn.
  - rewrite (handleSendMessage_blocked note clock (view x)) by by right.
    cbn. by rewrite Nat.add_0_r.
  - unfold handleKeyPress. destruct (bool_decide _ && _).
    + rewrite (handleSendMessage_blocked note clock (view x)) by by right.
      cbn. by rewrite Nat.add_0_r.
    + cbn. by rewrite Nat.add_0_r.
Qed.

Lemma run_unsettled note mid :
  ∀ x,
    Forall (λ ev, is_settlement ev = false) mid →
    isLoading (view x) = true →
    messages (view (run note mid x).1) = messages (view x)
    ∧ isLoading (view (run note mid x).1) = true
    ∧ outstanding (run note mid x).1 = outstanding x.
Proof.
  induction mid as [|ev mid IH]; intros x Hall Hload; [done|].
  apply Forall_cons in Hall as [Hev Hall].
  destruct (step_unsettled note ev x Hev Hload) as (Hm & Hl & Ho).
  rewrite session_run_cons.
  destruct (IH (step note ev x).1 Hall Hl) as (Hm' & Hl' & Ho').
  by rewrite Hm', Hl', Ho', Hm, Ho.
Qed.

(** A history load that settles between a send and its reply replaces the
    transcript, the optimistic user message included: here the transcript
    holds the welcome message before the send and two messages, not
    three, after the reply. *)
Example history_load_between_send_and_reply :
  ConversationMessage.id
    <$> messages (view (run Samples.note
                          [Typed "Why?"; Send Samples.clock;
                           LoadSettled
                             (Return (Some {| ConversationsResponse.messages :=
                                                Some [Samples.earlier] |}));
                           AskSettled Samples.clock (Throw FetchFailed)]
                          (mounted Samples.note Samples.clock)).1)
  = ["m1"; "1700000000001"].
Proof. reflexivity. Qed.

(** C4 (amended): a send whose input is not blank once trimmed, made
    while no request is outstanding, appends exactly one user message
    carrying the input at once and issues one [askQuestion].  When that
    request settles, exactly one assistant message is appended to the
    transcript as it then stands: the answer (or the fixed fallback text
    when the answer is missing or empty) if the request resolved with a
    response, the fixed apology if it failed or resolved with [null].
    If no promise settles between the send and its reply, whatever is
    typed or pressed meanwhile, the transcript after the reply is the
    transcript before the send followed by these two messages: it has
    grown by exactly 2.  If the history load settles in between with a
    [messages] array, that array replaces the transcript, and the
    transcript after the reply is the loaded history followed by the one
    assistant message.  A send with blank input, or during an outstanding
    request, changes nothing. *)
Theorem C4_send_appends_user_then_assistant :
  ∀ (note : Note.t) (clock clock' : Clock)
    (outcome : Completion (option AskResponse.t)) (s : State)
    (pending : nat),
    let reply :=
      match outcome with
      | Return (Some response) =>
          match AskResponse.answer response with
          | Some answer => if decide (answer = "") then fallback else answer
          | None => fallback
          end
      | Return None | Throw _ => apology
      end in
    let x := {| view := s; outstanding := pending |} in
    (trim (inputValue s) ≠ "" → isLoading s = false →
     ∃ u,
       messages (handleSendMessage note clock s).1 = messages s ++ [u]
       ∧ ConversationMessage.role u = user
       ∧ ConversationMessage.content u = inputValue s
       ∧ (handleSendMessage note clock s).2
           = [ApiCall (Api.AskQuestion (Note.id note) (inputValue s))]
       ∧ (∀ mid,
            Forall (λ ev, is_settlement ev = false) mid →
            ∃ a,
              messages
                (view (run note
                         (Send clock :: mid ++ [AskSettled clock' outcome])
                         x).1)
                = messages s ++ [u; a]
              ∧ ConversationMessage.role a = assistant
              ∧ ConversationMessage.content a = reply
              ∧ length
                  (messages
                     (view (run note
                              (Send clock
                                 :: mid ++ [AskSettled clock' outcome])
                              x).1))
                  = (length (messages s) + 2)%nat)
       ∧ (∀ mid mid' loaded,
            Forall (λ ev, is_settlement ev = false) mid →
            Forall (λ ev, is_settlement ev = false) mid' →
            ∃ a,
              messages
                (view (run note
                         (Send clock
                            :: mid
                            ++ LoadSettled
                                 (Return
                                    (Some {| ConversationsResponse.messages :=
                                               Some loaded |}))
                            :: mid' ++ [AskSettled clock' outcome])
                         x).1)
                = loaded ++ [a]
              ∧ ConversationMessage.role a = assistant
              ∧ ConversationMessage.content a = reply))
    ∧ (∀ s' : State,
         ∃ a,
           messages (handleSendMessage_settled clock' outcome s').1
             = messages s' ++ [a]
           ∧ ConversationMessage.role a = assistant
           ∧ ConversationMessage.content a = reply)
    ∧ (trim (inputValue s) = "" ∨ isLoading s = true →
       handleSendMessage note clock s = (s, [])).
Proof.
  intros note clock clock' outcome s pending reply x.
  assert (Hreply : match outcome with
                   | Return (Some response) =>
                       js_or (AskResponse.answer response) fallback
                   | _ => apology
                   end = reply).
  { subst reply. destruct outcome as [[[[[|c answer]|]]|]|e]; done. }
  assert (Hsettle : ∀ x' : Session,
            outstanding x' ≠ 0%nat →
            ∃ a,
              messages (view (step note (AskSettled clock' outcome) x').1)
                = messages (view x') ++ [a]
              ∧ ConversationMessage.role a = assistant
              ∧ ConversationMessage.content a = reply).
  { intros x' Hout. cbn. destruct (outstanding x') as [|n]; [done|].
    destruct (handleSendMessage_settled_appends clock' outcome (view x'))
      as (a & Hm & Hr & Hc & _).
    rewrite Hreply in Hc.
    exists a. by destruct (handleSendMessage_settled clock' outcome (view x')). }
  split; [|split].
  - intros Hin%truthy_true Hload.
    set (u := {| ConversationMessage.id := number_to_string (now clock);
                 ConversationMessage.role := user;
                 ConversationMessage.content := inputValue s;
                 ConversationMessage.timestamp := toISOString clock |}).
    assert (Hsend : handleSendMessage note clock s
                    = (setIsLoading true
                         (setInputValue ""
                            (setMessages (λ prev, prev ++ [u]) s)),
                       [ApiCall (Api.AskQuestion (Note.id note)
                                   (inputValue s))])).
    { unfold handleSendMessage. by rewrite Hin, Hload. }
    set (x1 := (step note (Send clock) x).1).
    assert (Hx1 : messages (view x1) = messages s ++ [u]
                  ∧ isLoading (view x1) = true
                  ∧ outstanding x1 ≠ 0%nat).
    { subst x1 x. cbn. rewrite Hsend. cbn. repeat split; try done.
      destruct (decide (true = true)); [cbn; lia | done]. }
    destruct Hx1 as (Hm1 & Hl1 & Ho1).
    exists u. rewrite Hsend. do 4 (split; [done|]). split.
    + intros mid Hmid.
      rewrite session_run_cons, session_run_app. fold x1.
      destruct (run_unsettled note mid x1 Hmid Hl1) as (Hm2 & _ & Ho2).
      destruct (Hsettle (run note mid x1).1) as (a & Hm & Hr & Hc);
        [by rewrite Ho2|].
      exists a. rewrite session_run_cons. cbn [run fst].
      rewrite Hm, Hm2, Hm1, <- app_assoc. repeat split; try done.
      rewrite !length_app. cbn. lia.
    + intros mid mid' loaded Hmid Hmid'.
      rewrite session_run_cons, session_run_app. fold x1.
      destruct (run_unsettled note mid x1 Hmid Hl1) as (_ & Hl2 & Ho2).
      set (x2 := (run note mid x1).1) in *.
      rewrite session_run_cons, session_run_app.
      set (x3 := (step note (LoadSettled _) x2).1).
      assert (Hx3 : messages (view x3) = loaded
                    ∧ isLoading (view x3) = true
                    ∧ outstanding x3 = outstanding x2) by done.
      destruct Hx3 as (Hm3 & Hl3 & Ho3).
      destruct (run_unsettled note mid' x3 Hmid' Hl3) as (Hm4 & _ & Ho4).
      destruct (Hsettle (run note mid' x3).1) as (a & Hm & Hr & Hc);
        [by rewrite Ho4, Ho3, Ho2|].
      exists a. rewrite session_run_cons. cbn [run fst].
      by rewrite Hm, Hm4, Hm3.
  - intros s'.
    destruct (handleSendMessage_settled_appends clock' outcome s')
      as (a & Hm & Hr & Hc & _).
    rewrite Hreply in Hc. by exists a.
  - apply handleSendMessage_blocked.
Qed.

Lemma C4_witness :
  trim (inputValue Samples.asking) ≠ ""
  ∧ isLoading Samples.asking = false
  ∧ length (messages
              (view (run Samples.note
                       [Send Samples.clock; Typed "And then?";
                        Send Samples.clock;
                        AskSettled Samples.clock (Throw FetchFailed)]
                       {| view := Samples.asking; outstanding := 0 |}).1))
      = 2%nat
  ∧ handleSendMessage Samples.note Samples.clock Samples.blank
      = (Samples.blank, []).
Proof.
  split; [done|]. split; [done|]. split.
  - destruct (proj1 (C4_send_appends_user_then_assistant
                       Samples.note Samples.clock Samples.clock
                       (Throw FetchFailed) Samples.asking 0))
      as (u & _ & _ & _ & _ & Hgrow & _); [done | done |].
    destruct (Hgrow [Typed "And then?"; Send Samples.clock])
      as (a & _ & _ & _ & Hlen); [by repeat constructor|].
    exact Hlen.
  - apply (proj2 (proj2 (C4_send_appends_user_then_assistant
                           Samples.note Samples.clock Samples.clock
                           (Throw FetchFailed) Samples.blank 0))).
    left. reflexivity.
Defined.

(** C10: when [askQuestion] resolves with a response whose [answer] is
    missing or the empty string, the assistant message appended to the
    transcript carries the fixed fallback text. *)
Theorem C10_missing_answer_gets_fallback :
  ∀ (clock : Clock) (response : AskResponse.t) (s : State),
    AskResponse.answer response = None
    ∨ AskResponse.answer response = Some "" →
    ∃ a,
      messages (handleSendMessage_settled clock (Return (Some response)) s).1
        = messages s ++ [a]
      ∧ ConversationMessage.role a = assistant
      ∧ ConversationMessage.content a
          = "I apologize, but I couldn't generate a response. Please try rephrasing your question.".
Proof.
  intros clock response s H.
  destruct (handleSendMessage_settled_appends clock
              (Return (Some response)) s) as (a & Hm & Hr & Hc & _).
  exists a. repeat split; try done.
  rewrite Hc. by destruct H as [-> | ->].
Qed.

Lemma C10_witness :
  ∃ a,
    messages (handleSendMessage_settled Samples.clock
                (Return (Some {| AskResponse.answer := Some "" |}))
                initial).1 = [a]
    ∧ ConversationMessage.role a = assistant
    ∧ ConversationMessage.content a
        = "I apologize, but I couldn't generate a response. Please try rephrasing your question.".
Proof.
  apply (C10_missing_answer_gets_fallback Samples.clock
           {| AskResponse.answer := Some "" |} initial).
  right. reflexivity.
Defined.

(** C9 as stated fails: with one earlier message on the server, neither
    the transcript after the mount, nor the one after the load has then
    settled, nor the one the opposite order would give, holds both the
    welcome message and the loaded history. *)
Lemma C9_counterexample_no_coexistence :
  let hello := welcome Samples.note Samples.clock in
  let loaded := [Samples.earlier] in
  let seed := λ s, (mount Samples.note Samples.clock s).1 in
  let settle := λ s,
    (loadConversations_settled
       (Return (Some {| ConversationsResponse.messages := Some loaded |}))
       s).1 in
  ¬ coexist hello loaded (messages (seed initial))
  ∧ ¬ coexist hello loaded (messages (settle (seed initial)))
  ∧ ¬ coexist hello loaded (messages (seed (settle initial))).
Proof.
  cbn. unfold coexist. repeat split.
  - intros (_ & _ & Hsub).
    specialize (Hsub Samples.earlier ltac:(left)).
    apply list_elem_of_singleton in Hsub. discriminate Hsub.
  - intros (Hin & _). apply list_elem_of_singleton in Hin. discriminate Hin.
  - intros (_ & _ & Hsub).
    specialize (Hsub Samples.earlier ltac:(left)).
    apply list_elem_of_singleton in Hsub. discriminate Hsub.
Qed.

(** C9 (amended): the mount initiates the history load and then seeds the
    welcome message unconditionally, so the transcript is the welcome
    message alone; when the load later resolves with a [messages] array,
    that array replaces the whole transcript, whatever it held; when the
    load fails, or resolves to a falsy response or one without
    [messages], the transcript is left as it was.  Hence, unless the
    loaded history itself contains the welcome message, the two are never
    in the transcript together, neither before nor after the load
    settles. *)
Theorem C9_welcome_seeded_then_replaced_by_history :
  ∀ (note : Note.t) (clock : Clock) (s : State),
    (mount note clock s).2 = [ApiCall (Api.GetConversations (Note.id note))]
    ∧ messages (mount note clock s).1 = [welcome note clock]
    ∧ (∀ loaded,
         messages (loadConversations_settled
                     (Return (Some {| ConversationsResponse.messages :=
                                        Some loaded |})) s).1 = loaded)
    ∧ (loadConversations_settled
         (Return (Some {| ConversationsResponse.messages := None |})) s).1 = s
    ∧ (loadConversations_settled (Return None) s).1 = s
    ∧ (∀ e, (loadConversations_settled (Throw e) s).1 = s)
    ∧ (∀ loaded,
         welcome note clock ∉ loaded →
         ¬ coexist (welcome note clock) loaded (messages (mount note clock s).1)
         ∧ ¬ coexist (welcome note clock) loaded
               (messages
                  (loadConversations_settled
                     (Return (Some {| ConversationsResponse.messages :=
                                        Some loaded |}))
                     (mount note clock s).1).1)).
Proof.
  intros note clock s. do 6 (split; [done|]).
  intros loaded Hfresh. split.
  - intros (_ & Hne & Hsub). destruct loaded as [|m loaded]; [done|].
    specialize (Hsub m ltac:(left)). cbn in Hsub.
    apply list_elem_of_singleton in Hsub as ->.
    apply Hfresh. left.
  - by intros (Hin & _).
Qed.

Lemma C9_witness :
  (welcome Samples.note Samples.clock ∉ [Samples.earlier])
  ∧ ¬ coexist (welcome Samples.note Samples.clock) [Samples.earlier]
        (messages
           (loadConversations_settled
              (Return (Some {| ConversationsResponse.messages :=
                                 Some [Samples.earlier] |}))
              (mount Samples.note Samples.clock initial).1).1).
Proof.
  assert (welcome Samples.note Samples.clock ∉ [Samples.earlier]) as Hfresh.
  { intros H. apply list_elem_of_singleton in H. discriminate H. }
  split; [exact Hfresh|].
  apply (proj2 (proj2 (proj2 (proj2 (proj2 (proj2
           (C9_welcome_seeded_then_replaced_by_history
              Samples.note Samples.clock initial))))))
           [Samples.earlier] Hfresh).
Defined.

End ChatFacts.

(** ** The quiz flow *)

Section QuizFacts.
Import QuizInterface.
Variable note : Note.t.

Lemma run_app evs1 evs2 s :
  run note (evs1 ++ evs2) s
    = ((run note evs2 (run note evs1 s).1).1,
       (run note evs1 s).2 ++ (run note evs2 (run note evs1 s).1).2).
Proof.
  revert s. induction evs1 as [|ev evs1 IH]; intros s; cbn.
  - by destruct (run note evs2 s).
  - destruct (step note ev s) as [s1 effs1]. rewrite IH.
    destruct (run note evs1 s1) as [s2 effs2]. cbn.
    by rewrite app_assoc.
Qed.

Lemma answer_all_cons a given :
  answer_all (a :: given) = [Select a; Next] ++ answer_all given.
Proof. reflexivity. Qed.

(** One round (enter an answer, press the button) on a displayed
    question: either the quiz moves on, or the answers are submitted. *)
Lemma round s q a :
  currentQuestion s = Some q → a ≠ "" →
  run note [Select a; Next] s
    = if decide (S (currentQuestionIndex s) < length (questions s))%nat
      then (setSelectedAnswer ""
              (setCurrentQuestionIndex (currentQuestionIndex s + 1)
                 (setAnswers (answers s ++ [newAnswer q a])
                    (setSelectedAnswer a s))), [])
      else (setIsLoading true
              (setAnswers (answers s ++ [newAnswer q a])
                 (setSelectedAnswer a s)),
            [ApiCall (Api.SubmitAnswers (Note.id note)
                        (answers s ++ [newAnswer q a]))]).
Proof.
  intros Hq Ha. unfold currentQuestion in Hq.
  cbn. unfold handleNextQuestion. cbn.
  destruct a as [|c a]; [done|]. cbn. rewrite Hq. cbn.
  case_decide as Hlt.
  - rewrite (proj2 (Z.ltb_lt _ _)) by lia. reflexivity.
  - rewrite (proj2 (Z.ltb_ge _ _)) by lia. reflexivity.
Qed.

Lemma round_state s q a :
  currentQuestion s = Some q → a ≠ "" →
  let s' := (run note [Select a; Next] s).1 in
  questions s' = questions s
  ∧ answers s' = answers s ++ [newAnswer q a]
  ∧ quizState s' = quizState s
  ∧ currentQuestionIndex s'
      = (if decide (S (currentQuestionIndex s) < length (questions s))%nat
         then S (currentQuestionIndex s) else currentQuestionIndex s)
  ∧ is_Some (currentQuestion s').
Proof.
  intros Hq Ha. cbv zeta. rewrite (round s q a Hq Ha).
  case_decide as Hlt; cbn; (repeat split; try done; try lia);
    unfold currentQuestion in *; cbn.
  apply lookup_lt_is_Some. lia.
Qed.

(** Every round appends one entry, made of the text of the question on
    display and of the answer entered. *)
Lemma answer_all_accumulates given :
  ∀ s, is_Some (currentQuestion s) → Forall (λ a, a ≠ "") given →
    ∃ entries,
      answers (run note (answer_all given) s).1 = answers s ++ entries
      ∧ Forall2 (λ e shown_q, ∃ q, shown_q = Some q
                   ∧ Answer.question e = Question.question q)
          entries (shown note given s)
      ∧ Forall2 (λ e a, Answer.answer e = a) entries given.
Proof.
  induction given as [|a given IH]; intros s [q Hq] Hall.
  - exists []. cbn. rewrite app_nil_r. by repeat constructor.
  - apply Forall_cons in Hall as [Ha Hall].
    destruct (round_state s q a Hq Ha) as (_ & Hans & _ & _ & Hcur).
    destruct (IH _ Hcur Hall) as (entries & He & Hshown & Hgiven).
    exists (newAnswer q a :: entries).
    rewrite answer_all_cons, run_app. cbn [fst shown].
    split; [|split].
    + by rewrite He, Hans, <- app_assoc.
    + constructor; [by exists q | done].
    + by constructor.
Qed.

(** Answering the remaining questions in turn fires exactly one effect:
    the submission of the accumulated answers followed by the pairs of
    the remaining questions with the answers given. *)
Lemma answer_all_submits given :
  ∀ s, given ≠ [] → Forall (λ a, a ≠ "") given →
    (currentQuestionIndex s + length given = length (questions s))%nat →
    (run note (answer_all given) s).2
      = [ApiCall (Api.SubmitAnswers (Note.id note)
           (answers s
              ++ zip_with newAnswer
                   (drop (currentQuestionIndex s) (questions s)) given))].
Proof.
  induction given as [|a given IH]; intros s Hne Hall Hlen; [done|].
  apply Forall_cons in Hall as [Ha Hall]. cbn [length] in Hlen.
  destruct (lookup_lt_is_Some_2 (questions s) (currentQuestionIndex s))
    as [q Hq]; [lia|].
  rewrite answer_all_cons, run_app. cbn [fst snd].
  rewrite (drop_S _ q _ Hq). cbn [zip_with].
  rewrite (round s q a Hq Ha).
  destruct given as [|a2 given].
  - rewrite decide_False by (cbn in Hlen; lia). cbn.
    by rewrite zip_with_nil_r.
  - rewrite decide_True by (cbn in Hlen; lia). cbn [fst snd].
    rewrite app_nil_l, IH; [|done|done|cbn in *; lia].
    cbn. by rewrite Nat.add_1_r, <- app_assoc.
Qed.

(** In a quiz started with a non-empty list of generated questions,
    answering each question in turn with a non-empty answer and pressing
    the button each time hands [submitAnswers] exactly one array; it has
    as many entries as there are questions, and entry [i] pairs the text
    of question [i] with the answer entered at step [i]. *)
Lemma first_submission_pairs_questions_with_answers :
  ∀ (generated : list Question.t) (given : list string) (s0 : State),
    generated ≠ [] →
    length given = length generated →
    Forall (λ a, a ≠ "") given →
    ∃ sent,
      submitted (run note (answer_all given) (started generated s0)).2
        = [(Note.id note, sent)]
      ∧ length sent = length generated
      ∧ ∀ i q a, generated !! i = Some q → given !! i = Some a →
          sent !! i = Some {| Answer.question := Question.question q;
                              Answer.answer := a |}.
Proof.
  intros generated given s0 Hne Hlen Hall.
  exists (zip_with newAnswer generated given).
  rewrite answer_all_submits; [|by destruct given, generated|done|by cbn].
  split; [done|]. split.
  - by rewrite length_zip_with_l_eq.
  - intros i q a Hq Ha. apply lookup_zip_with_Some. eauto.
Qed.

(** After a failed submission on the last question the button is enabled
    again, and pressing it submits a second array, which repeats the last
    entry. *)
Lemma resubmission_repeats_last_answer s q a e :
  quizState s = taking →
  currentQuestion s = Some q → a ≠ "" →
  ¬ (S (currentQuestionIndex s) < length (questions s))%nat →
  next_enabled (run note [Select a; Next; SubmitSettled (Throw e)] s).1 = true
  ∧ submitted (run note [Select a; Next; SubmitSettled (Throw e); Next] s).2
      = [(Note.id note, answers s ++ [newAnswer q a]);
         (Note.id note, answers s ++ [newAnswer q a; newAnswer q a])].
Proof.
  intros Htaking Hq Ha Hlast. split.
  - change [Select a; Next; SubmitSettled (Throw e)]
      with ([Select a; Next] ++ [SubmitSettled (Throw e)]).
    rewrite run_app, (round s q a Hq Ha), decide_False by done.
    unfold next_enabled, currentQuestion in *. cbn. rewrite Htaking, Hq.
    by destruct a.
  - change [Select a; Next; SubmitSettled (Throw e); Next]
      with ([Select a; Next] ++ [SubmitSettled (Throw e); Next]).
    rewrite run_app, (round s q a Hq Ha), decide_False by done.
    unfold currentQuestion in Hq.
    cbn. unfold handleNextQuestion. cbn.
    destruct a as [|c a]; [done|]. cbn. rewrite Hq. cbn.
    rewrite (proj2 (Z.ltb_ge _ _)) by lia. cbn.
    by rewrite <- app_assoc.
Qed.

(** A round that moves on to the next question fires nothing. *)
Lemma round_moves_on s q a evs :
  currentQuestion s = Some q → a ≠ "" →
  (S (currentQuestionIndex s) < length (questions s))%nat →
  run note ([Select a; Next] ++ evs) s
    = run note evs
        (setSelectedAnswer ""
           (setCurrentQuestionIndex (currentQuestionIndex s + 1)
              (setAnswers (answers s ++ [newAnswer q a])
                 (setSelectedAnswer a s)))).
Proof.
  intros Hq Ha Hlt. rewrite run_app, (round s q a Hq Ha), decide_True by done.
  cbn [fst snd app]. by destruct (run note evs _).
Qed.

(** The same from any question on: the rounds that remain end in one
    submission; when it fails and the button is pressed again, a second
    submission follows, with the last entry twice. *)
Lemma answer_all_then_resubmit given e :
  ∀ s, given ≠ [] → Forall (λ a, a ≠ "") given → quizState s = taking →
    (currentQuestionIndex s + length given = length (questions s))%nat →
    let sent :=
      answers s
        ++ zip_with newAnswer
             (drop (currentQuestionIndex s) (questions s)) given in
    ∃ extra,
      last sent = Some extra
      ∧ next_enabled
          (run note (answer_all given ++ [SubmitSettled (Throw e)]) s).1
          = true
      ∧ submitted
          (run note (answer_all given ++ [SubmitSettled (Throw e); Next]) s).2
          = [(Note.id note, sent); (Note.id note, sent ++ [extra])].
Proof.
  induction given as [|a given IH]; intros s Hne Hall Htaking Hlen; [done|].
  apply Forall_cons in Hall as [Ha Hall]. cbn [length] in Hlen.
  destruct (lookup_lt_is_Some_2 (questions s) (currentQuestionIndex s))
    as [q Hq]; [lia|].
  cbv zeta. rewrite (drop_S _ q _ Hq). cbn [zip_with].
  destruct given as [|a2 given].
  - rewrite zip_with_nil_r. exists (newAnswer q a).
    split; [apply last_snoc|].
    destruct (resubmission_repeats_last_answer s q a e Htaking Hq Ha)
      as [Henabled Hsub]; [cbn in Hlen; lia|].
    split; [exact Henabled|]. rewrite <- app_assoc. exact Hsub.
  - assert (S (currentQuestionIndex s) < length (questions s))%nat as Hlt
      by (cbn in Hlen; lia).
    rewrite answer_all_cons, <- !(app_assoc [Select a; Next]).
    rewrite !(round_moves_on s q a _ Hq Ha Hlt).
    set (s1 := setSelectedAnswer ""
                 (setCurrentQuestionIndex (currentQuestionIndex s + 1)
                    (setAnswers (answers s ++ [newAnswer q a])
                       (setSelectedAnswer a s)))).
    destruct (IH s1) as (extra & Hlast & Henabled & Hsub);
      [done | done | done | cbn in *; lia |].
    cbn [s1 answers questions currentQuestionIndex setSelectedAnswer
         setCurrentQuestionIndex setAnswers] in Hlast, Hsub.
    rewrite Nat.add_1_r in Hlast, Hsub.
    rewrite <- (app_assoc (answers s) [newAnswer q a]) in Hlast, Hsub.
    by exists extra.
Qed.

(** C2 (the code departs from the claim): in a quiz started with a
    non-empty list of generated questions, answering each question in turn
    with a non-empty answer and pressing the button each time hands
    [submitAnswers] one array, and this one is as the claim says: as many
    entries as there are questions, entry [i] pairing the text of question
    [i] with the answer entered at step [i].  But when that request fails,
    the quiz stays on its last question with the answer still selected and
    the button enabled; pressing it again hands [submitAnswers] a second
    array, in which the last entry is repeated: it has one entry more
    than there are questions. *)
Theorem C2_resubmission_after_failure_sends_extra_entry :
  ∀ (generated : list Question.t) (given : list string) (s0 : State)
    (e : Thrown),
    generated ≠ [] →
    length given = length generated →
    Forall (λ a, a ≠ "") given →
    ∃ sent extra,
      submitted (run note (answer_all given) (started generated s0)).2
        = [(Note.id note, sent)]
      ∧ length sent = length generated
      ∧ (∀ i q a, generated !! i = Some q → given !! i = Some a →
           sent !! i = Some {| Answer.question := Question.question q;
                               Answer.answer := a |})
      ∧ next_enabled
          (run note (answer_all given ++ [SubmitSettled (Throw e)])
             (started generated s0)).1 = true
      ∧ submitted
          (run note (answer_all given ++ [SubmitSettled (Throw e); Next])
             (started generated s0)).2
          = [(Note.id note, sent); (Note.id note, sent ++ [extra])]
      ∧ last sent = Some extra
      ∧ length (sent ++ [extra]) = S (length generated).
Proof.
  intros generated given s0 e Hne Hlen Hall.
  destruct (first_submission_pairs_questions_with_answers
              generated given s0 Hne Hlen Hall) as (sent & Hsent & Hl & Hi).
  destruct (answer_all_then_resubmit given e (started generated s0))
    as (extra & Hlast & Henabled & Hsub);
    [by destruct given, generated | done | done | by cbn |].
  cbn [started generateQuiz_settled fst answers questions
       currentQuestionIndex default app] in Hlast, Hsub.
  rewrite drop_0 in Hlast, Hsub.
  assert (sent = zip_with newAnswer generated given) as ->.
  { rewrite answer_all_submits in Hsent;
      [|by destruct given, generated|done|by cbn].
    cbn in Hsent. by injection Hsent as <-. }
  exists (zip_with newAnswer generated given), extra.
  do 5 (split; [done|]). split; [done|].
  rewrite length_app, Hl. cbn. lia.
Qed.

(** C3: with an empty current answer [handleNextQuestion] returns the
    state it was given and fires nothing; from a state that displays a
    question, [N] rounds with non-empty answers append exactly [N]
    entries to the accumulator (so it holds exactly [N] when it was
    empty), and the [i]-th of them carries the text of the question that
    was on display at step [i] and the answer entered there. *)
Theorem C3_empty_answer_blocks_and_rounds_accumulate :
  ∀ (s : State) (given : list string),
    quizState s = taking →
    (selectedAnswer s = "" → handleNextQuestion note s = Return (s, []))
    ∧ (is_Some (currentQuestion s) → Forall (λ a, a ≠ "") given →
       ∃ entries,
         answers (run note (answer_all given) s).1 = answers s ++ entries
         ∧ length entries = length given
         ∧ (answers s = [] →
            length (answers (run note (answer_all given) s).1)
              = length given)
         ∧ Forall2 (λ e shown_q, ∃ q, shown_q = Some q
                      ∧ Answer.question e = Question.question q)
             entries (shown note given s)
         ∧ Forall2 (λ e a, Answer.answer e = a) entries given).
Proof.
  intros s given _. split.
  - intros Hempty. unfold handleNextQuestion. by rewrite Hempty.
  - intros Hcur Hall.
    destruct (answer_all_accumulates given s Hcur Hall)
      as (entries & He & Hshown & Hgiven).
    exists entries. repeat split; try done.
    + by apply Forall2_length in Hgiven.
    + intros Hnil. rewrite He, Hnil. cbn.
      by apply Forall2_length in Hgiven.
Qed.

(** C7: when the [submitAnswers] request fails, [submitQuiz] leaves the
    quiz in the 'taking' state with its questions, its accumulated
    answers, its position and its selection untouched, and shows one
    toast; when the request resolves, the state becomes 'results' and
    holds the response (and so its score); starting from 'taking', the
    state is 'results' afterwards exactly when the request resolved. *)
Theorem C7_failed_submission_keeps_quiz :
  ∀ (s : State) (outcome : Completion (option Results.t)),
    quizState s = taking →
    (∀ e, outcome = Throw e →
       (submitQuiz_settled outcome s).1 = setIsLoading false s
       ∧ quizState (submitQuiz_settled outcome s).1 = taking
       ∧ questions (submitQuiz_settled outcome s).1 = questions s
       ∧ answers (submitQuiz_settled outcome s).1 = answers s
       ∧ ∃ t, (submitQuiz_settled outcome s).2 = [ShowToast t])
    ∧ (∀ response, outcome = Return response →
         quizState (submitQuiz_settled outcome s).1 = results_
         ∧ results (submitQuiz_settled outcome s).1 = response
         ∧ (submitQuiz_settled outcome s).2 = [])
    ∧ (quizState (submitQuiz_settled outcome s).1 = results_
       ↔ ∃ response, outcome = Return response).
Proof.
  intros s outcome Htaking. split; [|split; [|split]].
  - intros e ->. cbn. repeat split; eauto.
  - by intros response ->.
  - destruct outcome as [r|e]; [eauto|]. cbn. congruence.
  - by intros [r ->].
Qed.

End QuizFacts.

Section QuizInstances.
Import QuizInterface.

Lemma C2_witness :
  ∃ sent extra,
    submitted (run Samples.note (answer_all ["a"; "b"; "c"])
                 (started Samples.three_questions initial)).2
      = [("n1", sent)]
    ∧ submitted
        (run Samples.note
           (answer_all ["a"; "b"; "c"]
              ++ [SubmitSettled (Throw FetchFailed); Next])
           (started Samples.three_questions initial)).2
        = [("n1", sent); ("n1", sent ++ [extra])]
    ∧ length (sent ++ [extra]) = 4%nat.
Proof.
  destruct (C2_resubmission_after_failure_sends_extra_entry
              Samples.note Samples.three_questions ["a"; "b"; "c"] initial
              FetchFailed)
    as (sent & extra & Hfirst & _ & _ & _ & Hsecond & _ & Hlen);
    [done | reflexivity | by repeat constructor |].
  by exists sent, extra.
Defined.

(** The two arrays of that session, in full. *)
Example resubmission_of_three_answers :
  map (λ '(_, l), Answer.answer <$> l)
    (submitted
       (run Samples.note
          (answer_all ["a"; "b"; "c"]
             ++ [SubmitSettled (Throw FetchFailed); Next])
          (started Samples.three_questions initial)).2)
  = [["a"; "b"; "c"]; ["a"; "b"; "c"; "c"]].
Proof. reflexivity. Qed.

Lemma C3_witness :
  quizState (started Samples.three_questions initial) = taking
  ∧ handleNextQuestion Samples.note (started Samples.three_questions initial)
      = Return (started Samples.three_questions initial, [])
  ∧ length (answers (run Samples.note (answer_all ["a"; "b"])
                       (started Samples.three_questions initial)).1)
      = 2%nat.
Proof.
  split; [reflexivity|]. split.
  - apply (proj1 (C3_empty_answer_blocks_and_rounds_accumulate
                    Samples.note (started Samples.three_questions initial) []
                    eq_refl)).
    reflexivity.
  - destruct (proj2 (C3_empty_answer_blocks_and_rounds_accumulate
                       Samples.note (started Samples.three_questions initial)
                       ["a"; "b"] eq_refl))
      as (entries & _ & _ & Hlen & _).
    + by eexists.
    + by repeat constructor.
    + apply Hlen. reflexivity.
Defined.

Lemma C7_witness :
  quizState (started Samples.three_questions initial) = taking
  ∧ quizState (submitQuiz_settled (Throw FetchFailed)
                 (started Samples.three_questions initial)).1 = taking
  ∧ quizState (submitQuiz_settled (Return None)
                 (started Samples.three_questions initial)).1 = results_.
Proof.
  split; [reflexivity|]. split.
  - apply (proj1 (C7_failed_submission_keeps_quiz
                    (started Samples.three_questions initial)
                    (Throw FetchFailed) eq_refl) FetchFailed eq_refl).
  - apply (proj1 (proj2 (C7_failed_submission_keeps_quiz
                    (started Samples.three_questions initial)
                    (Return None) eq_refl)) None eq_refl).
Defined.

End QuizInstances.

(** ** More on the gateway client *)

Section ApiSession.
Import Api.

Lemma request_settles {T} endpoint options (net : Network T) w :
  (request endpoint options net w).1
    = match net (request_call endpoint options w) with
      | Unreachable => Throw FetchFailed
      | Responded r =>
          if ok r then json r
          else Throw (Error ("API Error: " +:+ number_to_string (status r)
                               +:+ " " +:+ statusText r))
      end.
Proof. unfold request. destruct (net _) as [|r]; [done|]. by destruct (ok r). Qed.







(** The one [fetch] of a protected method: its headers, and nothing else
    of the session changes. *)
Lemma perform_fetch {T} (c : Call) (net : Network T) w :
  ∃ call,
    fetched (perform c net w).2 = fetched w ++ [call]
    ∧ token (perform c net w).2 = token w
    ∧ localStorage (perform c net w).2 = localStorage w
    ∧ headers (init call)
        = match c with
          | UploadNote _ => {[ "Authorization" := bearer (token w) ]}
          | _ => request_headers no_options w
          end.
Proof.
  destruct c; cbn [perform];
    unfold getNotes, getNote, deleteNote, askQuestion, generateQuestions,
      submitAnswers, getConversations, getGradedQuestion;
    eexists; (split; [|split; [|split]]);
    try first [apply uploadNote_issues | apply request_issues];
    reflexivity.
Qed.

Lemma perform_all_fetches {T} (cs : list Call) (net : Network T) :
  ∀ w, ∃ calls,
    fetched (perform_all cs net w) = fetched w ++ calls
    ∧ token (perform_all cs net w) = token w
    ∧ localStorage (perform_all cs net w) = localStorage w
    ∧ Forall2 (λ c call,
                 headers (init call)
                   = match c with
                     | UploadNote _ => {[ "Authorization" := bearer (token w) ]}
                     | _ => request_headers no_options w
                     end) cs calls.
Proof.
  induction cs as [|c cs IH]; intros w; cbn [perform_all].
  - exists []. by rewrite app_nil_r.
  - destruct (perform_fetch c net w) as (call & Hf & Ht & Hl & Hh).
    destruct (IH (perform c net w).2) as (calls & Hfs & Hts & Hls & Hhs).
    exists (call :: calls). rewrite Hfs, Hf, Hts, Ht, Hls, Hl, <- app_assoc.
    repeat split; try done. constructor; [done|].
    eapply Forall2_impl; [exact Hhs|]. intros c' call' Hc'. cbn in Hc'.
    rewrite Hc'. unfold request_headers. by rewrite Ht.
Qed.

(** X3: with a non-empty token in the client, every protected method
    (the ones through [request] and [uploadNote] alike) sends
    [Authorization: Bearer <token>]. *)
Theorem X3_token_sent_as_bearer :
  ∀ T (cs : list Call) (net : Network T) (w : World) (t : string),
    token w = VString t → t ≠ "" →
    ∃ calls,
      fetched (perform_all cs net w) = fetched w ++ calls
      ∧ length calls = length cs
      ∧ Forall (λ call, Authorization call = Some ("Bearer " +:+ t)) calls.
Proof.
  intros T cs net w t Ht Hne.
  destruct (perform_all_fetches cs net w) as (calls & Hf & _ & _ & Hh).
  exists calls. split; [done|]. split; [symmetry; by eapply Forall2_length|].
  clear Hf. induction Hh as [|c call cs calls Hc _ IH]; constructor; [|done].
  unfold Authorization. rewrite Hc.
  destruct c; unfold request_headers, bearer; rewrite ?Ht; cbn;
    rewrite ?(proj2 (truthy_true t) Hne); cbn;
    first [apply lookup_singleton_eq | apply lookup_insert_eq].
Qed.

Lemma X3_witness :
  ∃ calls,
    fetched (perform_all [GetNotes; UploadNote Samples.notes_txt]
               (λ _, Unreachable : FetchOutcome unit)
               (constructor {[ "authToken" := "abc" ]})) = [] ++ calls
    ∧ length calls = 2%nat
    ∧ Forall (λ call, Authorization call = Some "Bearer abc") calls.
Proof.
  apply (X3_token_sent_as_bearer unit [GetNotes; UploadNote Samples.notes_txt]
           (λ _, Unreachable) (constructor {[ "authToken" := "abc" ]}) "abc").
  - reflexivity.
  - discriminate.
Defined.



End ApiSession.

(** ** Endpoints *)

Section EndpointFacts.
Import Api.

Lemma append_length a b :
  String.length (a +:+ b) = (String.length a + String.length b)%nat.
Proof.
  induction a as [|c a IH]; [done|].
  change (S (String.length (a +:+ b))
          = S (String.length a + String.length b)).
  by rewrite IH.
Qed.

Lemma append_suffix_inj s a b : a +:+ s = b +:+ s → a = b.
Proof.
  revert b. induction a as [|c a IH]; intros [|c' b] H.
  - done.
  - apply (f_equal String.length) in H.
    rewrite !append_length in H. cbn in H. lia.
  - apply (f_equal String.length) in H.
    rewrite !append_length in H. cbn in H. lia.
  - change (String c (a +:+ s) = String c' (b +:+ s)) in H.
    injection H as -> H. f_equal. by apply IH.
Qed.

Lemma append_prefix_inj p a b : p +:+ a = p +:+ b → a = b.
Proof.
  induction p as [|c p IH]; [done|].
  change (String c (p +:+ a) = String c (p +:+ b) → a = b).
  intros [= H]. by apply IH.
Qed.

(** X6: for each per-note and per-question operation, different ids give
    different URLs. *)
Theorem X6_distinct_ids_distinct_urls :
  ∀ id id' : string,
    id ≠ id' →
    BASE_URL +:+ API_ENDPOINTS.notes.get id
      ≠ BASE_URL +:+ API_ENDPOINTS.notes.get id'
    ∧ BASE_URL +:+ API_ENDPOINTS.notes.delete id
        ≠ BASE_URL +:+ API_ENDPOINTS.notes.delete id'
    ∧ BASE_URL +:+ API_ENDPOINTS.notes.ask id
        ≠ BASE_URL +:+ API_ENDPOINTS.notes.ask id'
    ∧ BASE_URL +:+ API_ENDPOINTS.notes.generateQuestions id
        ≠ BASE_URL +:+ API_ENDPOINTS.notes.generateQuestions id'
    ∧ BASE_URL +:+ API_ENDPOINTS.notes.submitAnswers id
        ≠ BASE_URL +:+ API_ENDPOINTS.notes.submitAnswers id'
    ∧ BASE_URL +:+ API_ENDPOINTS.notes.conversations id
        ≠ BASE_URL +:+ API_ENDPOINTS.notes.conversations id'
    ∧ BASE_URL +:+ API_ENDPOINTS.questions.graded id
        ≠ BASE_URL +:+ API_ENDPOINTS.questions.graded id'.
Proof.
  intros id id' Hne.
  repeat split; intros H; apply Hne;
    apply append_prefix_inj in H;
    unfold API_ENDPOINTS.notes.get, API_ENDPOINTS.notes.delete,
      API_ENDPOINTS.notes.ask, API_ENDPOINTS.notes.generateQuestions,
      API_ENDPOINTS.notes.submitAnswers, API_ENDPOINTS.notes.conversations,
      API_ENDPOINTS.questions.graded in H;
    apply append_prefix_inj in H;
    first [exact H | by eapply append_suffix_inj].
Qed.

Lemma X6_witness :
  "n1" ≠ "n2"
  ∧ BASE_URL +:+ API_ENDPOINTS.notes.ask "n1"
      ≠ BASE_URL +:+ API_ENDPOINTS.notes.ask "n2".
Proof.
  assert ("n1" ≠ "n2") as Hne by discriminate.
  split; [exact Hne|].
  apply (X6_distinct_ids_distinct_urls "n1" "n2" Hne).
Defined.

End EndpointFacts.

(** ** Signing out and reloading *)

Section LogoutFacts.

(** X7: the dashboard's logout leaves the client without a token and
    [authToken] out of [localStorage], makes [Index] show the sign-in card,
    and a page reload on that storage shows the sign-in card again;
    conversely a page load shows the dashboard exactly when [localStorage]
    holds a non-empty [authToken]. *)
Theorem X7_logout_shows_sign_in_and_survives_reload :
  ∀ (w : Api.World) (page : Index.State),
    Index.isLoading page = false →
    let '(w', page', effs) := StudyDashboard.handleLogout w page in
    Api.isAuthenticated w' = false
    ∧ Api.fetched w' = Api.fetched w
    ∧ Index.render page' = Index.AuthCard
    ∧ Index.render (Index.load (Api.localStorage w')).2 = Index.AuthCard
    ∧ (∀ ls : gmap string string,
         Index.render (Index.load ls).2 = Index.Dashboard
         ↔ ∃ t, ls !! "authToken" = Some t ∧ t ≠ "").
Proof.
  intros w page Hloaded. cbn. repeat split.
  - unfold Index.render. cbn. by rewrite Hloaded.
  - unfold Index.render, Index.load, Index.checkAuth, Api.isAuthenticated.
    cbn. unfold Api.getItem. by rewrite lookup_delete_eq.
  - unfold Index.render, Index.load, Index.checkAuth, Api.isAuthenticated.
    cbn. unfold Api.getItem.
    destruct (ls !! "authToken") as [t|]; cbn; [|done].
    destruct t; cbn; [done|]. intros _. eauto.
  - intros (t & Ht & Hne).
    unfold Index.render, Index.load, Index.checkAuth, Api.isAuthenticated.
    cbn. unfold Api.getItem. rewrite Ht. cbn. by destruct t.
Qed.

Lemma X7_witness :
  Index.render
    (Index.load
       (Api.localStorage
          (StudyDashboard.handleLogout
             (Api.constructor {[ "authToken" := "abc" ]})
             (Index.load {[ "authToken" := "abc" ]}).2).1.1)).2
  = Index.AuthCard.
Proof.
  pose proof (X7_logout_shows_sign_in_and_survives_reload
                (Api.constructor {[ "authToken" := "abc" ]})
                (Index.load {[ "authToken" := "abc" ]}).2 eq_refl) as H.
  cbn in H. apply H.
Defined.

End LogoutFacts.

(** ** More on the upload flow *)

Section UploadSessionFacts.
Import UploadModal UploadSession.

(** X8: [handleFileSelect] selects a file, silently, exactly when its size
    is at most 20 MB (a file of exactly 20 MB is accepted) and its MIME
    type is one of the four allowed ones; the status is then [idle]. *)
Theorem X8_file_selected_iff_within_limits :
  ∀ (f : File.t) (s : State),
    (File.size f ≤ 20 * 1024 * 1024 ∧ File.type f ∈ allowedTypes
     ↔ (handleFileSelect f s).2 = [])
    ∧ ((handleFileSelect f s).2 = [] →
       file (handleFileSelect f s).1 = Some f
       ∧ uploadStatus (handleFileSelect f s).1 = idle
       ∧ uploadProgress (handleFileSelect f s).1 = uploadProgress s).
Proof.
  intros f s. unfold handleFileSelect, includes.
  destruct (maxSize <? File.size f) eqn:Hsize.
  { apply N.ltb_lt in Hsize. unfold maxSize in Hsize. cbn.
    split; [|done]. split; [lia | done]. }
  apply N.ltb_ge in Hsize. unfold maxSize in Hsize.
  destruct (decide (File.type f ∈ allowedTypes)) as [Hin|Hout].
  - rewrite bool_decide_eq_true_2 by done. cbn. by repeat split.
  - rewrite bool_decide_eq_false_2 by done. cbn.
    split; [|done]. split; [by intros [_ ?] | done].
Qed.

Lemma X8_witness :
  (handleFileSelect MoreSamples.exactly_20MB initial).2 = []
  ∧ file (handleFileSelect MoreSamples.exactly_20MB initial).1
      = Some MoreSamples.exactly_20MB.
Proof.
  split; [reflexivity|].
  apply (proj2 (X8_file_selected_iff_within_limits
                  MoreSamples.exactly_20MB initial)).
  reflexivity.
Defined.

Lemma after_app evs1 evs2 a :
  after (evs1 ++ evs2) a
    = ((after evs2 (after evs1 a).1).1,
       (after evs1 a).2 ++ (after evs2 (after evs1 a).1).2).
Proof.
  revert a. induction evs1 as [|ev evs1 IH]; intros a; cbn.
  - by destruct (after evs2 a).
  - destruct (step ev a) as [a1 effs1]. rewrite IH.
    destruct (after evs1 a1) as [a2 effs2]. cbn. by rewrite app_assoc.
Qed.

(** While the promise is pending, [k] ticks move the progress from [p] to
    [min (p + 10 k) 90] and fire nothing. *)
Lemma after_ticks k :
  ∀ a, running a →
    running (after (replicate k Tick) a).1
    ∧ progress (after (replicate k Tick) a).1
        = N.min (progress a + 10 * N.of_nat k) 90
    ∧ file (ui (after (replicate k Tick) a).1) = file (ui a)
    ∧ isUploading (ui (after (replicate k Tick) a).1) = isUploading (ui a)
    ∧ uploadStatus (ui (after (replicate k Tick) a).1) = uploadStatus (ui a)
    ∧ (after (replicate k Tick) a).2 = [].
Proof.
  induction k as [|k IH]; intros a Hrun.
  - cbn. destruct Hrun as (? & ? & ?). repeat split; try done. lia.
  - cbn [replicate after].
    assert (step Tick a
            = ({| ui := tick (ui a); progressInterval := true;
                  awaiting := awaiting a |}, [])) as ->.
    { destruct Hrun as (_ & Hi & _). cbn. by rewrite Hi. }
    set (a1 := {| ui := tick (ui a); progressInterval := true;
                  awaiting := awaiting a |}).
    assert (running a1) as Hrun1.
    { destruct Hrun as (Hw & Hi & Hp). repeat split; try done.
      unfold progress in *. cbn. lia. }
    destruct (IH a1 Hrun1) as (Hr & Hp & Hf & Hu & Hs & He).
    destruct (after (replicate k Tick) a1) as [a2 effs2].
    cbn [fst snd app] in *.
    repeat split; try done; try apply Hr.
    rewrite Hp. unfold progress. cbn.
    destruct Hrun as (_ & _ & Hp90). unfold progress in Hp90. lia.
Qed.

(** X9: [k] ticks into an upload that has not settled, the progress shown
    is [min (10 k) 90]: it reaches 90 with the ninth tick and stays
    there. *)
Theorem X9_progress_after_k_ticks :
  ∀ (s : State) (f : File.t) (k : nat),
    file s = Some f →
    progress (after (replicate k Tick) (handleUpload s).1).1
      = N.min (10 * N.of_nat k) 90.
Proof.
  intros s f k Hf.
  destruct (after_ticks k (handleUpload s).1) as (_ & Hp & _).
  { unfold handleUpload. rewrite Hf. repeat split. unfold progress. cbn. lia. }
  rewrite Hp. unfold handleUpload, progress. by rewrite Hf.
Qed.

Lemma X9_witness :
  file Samples.chosen = Some Samples.notes_txt
  ∧ progress (after (replicate 12 Tick) (handleUpload Samples.chosen).1).1
      = N.min (10 * N.of_nat 12) 90.
Proof.
  split; [reflexivity|].
  apply (X9_progress_after_k_ticks Samples.chosen Samples.notes_txt 12).
  reflexivity.
Defined.

(** X10: when the upload fails after [k] ticks, the status is [error],
    the progress stays where the ticks left it, [isUploading] is false and
    the file is still selected; pressing the button again starts exactly
    the attempt the first press started (progress 0, one [uploadNote] of
    the same file). *)
Theorem X10_failed_upload_can_be_retried :
  ∀ (s : State) (f : File.t) (k : nat) (e : Thrown),
    file s = Some f →
    let a := (after (replicate k Tick ++ [Settled (Throw e)])
                (handleUpload s).1).1 in
    uploadStatus (ui a) = error
    ∧ isUploading (ui a) = false
    ∧ progress a = N.min (10 * N.of_nat k) 90
    ∧ file (ui a) = Some f
    ∧ handleUpload (ui a) = handleUpload s
    ∧ (handleUpload (ui a)).2 = [SetInterval 200; ApiCall (Api.UploadNote f)].
Proof.
  intros s f k e Hf a.
  assert (running (handleUpload s).1) as Hrun.
  { unfold handleUpload. rewrite Hf. repeat split. unfold progress. cbn. lia. }
  destruct (after_ticks k _ Hrun) as ((Hw & _) & Hp & Hfile & _).
  subst a. rewrite after_app. cbn [fst].
  set (b := (after (replicate k Tick) (handleUpload s).1).1) in *.
  assert (file (ui b) = Some f) as Hfb.
  { rewrite Hfile. unfold handleUpload. by rewrite Hf. }
  assert (progress b = N.min (10 * N.of_nat k) 90) as Hpb.
  { rewrite Hp. unfold handleUpload, progress. by rewrite Hf. }
  unfold progress in *. cbn. rewrite Hw. cbn.
  repeat split; try done.
  - unfold handleUpload. cbn. by rewrite Hfb, Hf.
  - unfold handleUpload. cbn. by rewrite Hfb.
Qed.

Lemma X10_witness :
  file Samples.chosen = Some Samples.notes_txt
  ∧ uploadStatus
      (ui (after (replicate 3 Tick ++ [Settled (Throw FetchFailed)])
             (handleUpload Samples.chosen).1).1) = error.
Proof.
  split; [reflexivity|].
  apply (X10_failed_upload_can_be_retried
           Samples.chosen Samples.notes_txt 3 FetchFailed).
  reflexivity.
Defined.

(** X11: a whole successful upload (select a valid file, press the
    button, any number of ticks, the promise resolves, the closing timer
    fires) calls [uploadNote] exactly once, with the selected file, calls
    [onSuccess] then [onClose], and leaves the modal in its initial
    state. *)
Theorem X11_successful_upload_round_trip :
  ∀ (f : File.t) (k : nat),
    valid f = true →
    let s1 := (handleFileSelect f initial).1 in
    let started := handleUpload s1 in
    let ran := after (replicate k Tick ++ [Settled (Return ())]) started.1 in
    let closed := closing (ui ran.1) in
    closed.1 = initial
    ∧ filter (λ e, is_ApiCall e = true) (started.2 ++ ran.2 ++ closed.2)
        = [ApiCall (Api.UploadNote f)]
    ∧ closed.2 = [OnSuccess; OnClose].
Proof.
  intros f k Hvalid.
  apply andb_true_iff in Hvalid as [Hsize Htype].
  apply N.leb_le in Hsize.
  assert ((handleFileSelect f initial).1
          = {| file := Some f; isUploading := false; uploadProgress := 0;
               uploadStatus := idle |}) as Hsel.
  { unfold handleFileSelect. rewrite (proj2 (N.ltb_ge _ _) Hsize), Htype.
    reflexivity. }
  cbv zeta. rewrite Hsel.
  set (a0 := (handleUpload _).1).
  assert (running a0) as Hrun.
  { repeat split. unfold progress. cbn. lia. }
  destruct (after_ticks k a0 Hrun) as ((Hw & _) & _ & Hfile & _ & _ & Heffs).
  rewrite after_app, Heffs. cbn [fst snd].
  set (b := (after (replicate k Tick) a0).1) in *.
  cbn. rewrite Hw. cbn. done.
Qed.

Lemma X11_witness :
  valid Samples.notes_txt = true
  ∧ (closing
       (ui (after (replicate 4 Tick ++ [Settled (Return ())])
              (handleUpload (handleFileSelect Samples.notes_txt initial).1).1).1)).1
      = initial.
Proof.
  split; [reflexivity|].
  apply (X11_successful_upload_round_trip Samples.notes_txt 4).
  reflexivity.
Defined.

End UploadSessionFacts.

(** ** More on the chat flow *)

Section ChatSessionFacts.
Import ChatInterface ChatSession.

Lemma trimEnd_empty s : trimEnd s = "" ↔ blank s = true.
Proof.
  destruct s as [|c s]; [done|].
  change (trimEnd (String c s))
    with (if blank (String c s) then "" else String c (trimEnd s)).
  by destruct (blank (String c s)).
Qed.

(** Dropping white space from the front does not change whether the
    string is white space only. *)
Lemma blank_trimStart s : blank (trimStart s) = blank s.
Proof.
  remember (String.length s) as n eqn:Hn. revert s Hn.
  induction n as [n IH] using lt_wf_ind. intros s ->.
  destruct s as [|a r1]; [done|].
  cbn [trimStart blank].
  destruct (white_space_1 a) eqn:H1.
  { apply (IH (String.length r1)); [cbn; lia | done]. }
  destruct r1 as [|b r2].
  { cbn [blank]. by rewrite H1. }
  destruct (white_space_2 a b) eqn:H2.
  { apply (IH (String.length r2)); [cbn; lia | done]. }
  destruct r2 as [|c r3].
  { cbn [blank]. by rewrite H1, H2. }
  destruct (white_space_3 a b c) eqn:H3.
  { apply (IH (String.length r3)); [cbn; lia | done]. }
  cbn [blank]. by rewrite H1, H2, H3.
Qed.

Lemma trim_empty s : trim s = "" ↔ blank s = true.
Proof. unfold trim. by rewrite trimEnd_empty, blank_trimStart. Qed.

(** X12: a send does nothing (no message, no request) exactly when the
    input consists of white space only (the empty input included) or a
    request is outstanding; otherwise it issues exactly one
    [askQuestion], carrying the input as typed, and clears the input. *)
Theorem X12_send_blocked_iff_blank_or_loading :
  ∀ (note : Note.t) (clock : Clock) (s : State),
    (handleSendMessage note clock s = (s, [])
     ↔ blank (inputValue s) = true ∨ isLoading s = true)
    ∧ (blank (inputValue s) = false → isLoading s = false →
       (handleSendMessage note clock s).2
         = [ApiCall (Api.AskQuestion (Note.id note) (inputValue s))]
       ∧ inputValue (handleSendMessage note clock s).1 = ""
       ∧ isLoading (handleSendMessage note clock s).1 = true).
Proof.
  intros note clock s.
  assert (truthy (trim (inputValue s)) = negb (blank (inputValue s))) as Ht.
  { destruct (blank (inputValue s)) eqn:Hb.
    - apply trim_empty in Hb. by rewrite Hb.
    - destruct (trim (inputValue s)) eqn:Htr; [|done].
      apply trim_empty in Htr. congruence. }
  unfold handleSendMessage. rewrite Ht, negb_involutive.
  destruct (blank (inputValue s)), (isLoading s); cbn; split;
    try (split; [auto | done]); try done.
  split; [discriminate | by intros [|]].
Qed.

Lemma X12_witness :
  blank (inputValue Samples.asking) = false
  ∧ isLoading Samples.asking = false
  ∧ (handleSendMessage Samples.note Samples.clock Samples.asking).2
      = [ApiCall (Api.AskQuestion "n1" "Why?")]
  ∧ blank (inputValue MoreSamples.wide_blank) = true
  ∧ handleSendMessage Samples.note Samples.clock MoreSamples.wide_blank
      = (MoreSamples.wide_blank, []).
Proof.
  split; [reflexivity|]. split; [reflexivity|]. split.
  - apply (proj2 (X12_send_blocked_iff_blank_or_loading
                    Samples.note Samples.clock Samples.asking));
      reflexivity.
  - split; [reflexivity|].
    apply (proj1 (X12_send_blocked_iff_blank_or_loading
                    Samples.note Samples.clock MoreSamples.wide_blank)).
    left. reflexivity.
Defined.

(** [trim] at work on white space outside ASCII. *)
Example trim_strips_wide_white_space :
  trim MoreSamples.padded_text = "Why?"
  ∧ trim MoreSamples.wide_blank_text = ""
  ∧ trim MoreSamples.dash_text = MoreSamples.dash_text.
Proof. by vm_compute. Qed.

(** The invariant of a session: at most one request is outstanding, and
    [isLoading] says whether one is. *)
Lemma step_gate note ev x :
  (isLoading (view x) = true ∧ outstanding x = 1%nat)
  ∨ (isLoading (view x) = false ∧ outstanding x = 0%nat) →
  (isLoading (view (step note ev x).1) = true
   ∧ outstanding (step note ev x).1 = 1%nat)
  ∨ (isLoading (view (step note ev x).1) = false
     ∧ outstanding (step note ev x).1 = 0%nat).
Proof.
  intros Hinv. destruct ev as [v|clock|key shift clock|clock o|o]; cbn.
  - done.
  - unfold handleSendMessage.
    destruct Hinv as [[Hl Ho]|[Hl Ho]]; rewrite Hl, Ho.
    + rewrite orb_true_r. cbn. by left.
    + destruct (negb (truthy (trim (inputValue (view x))))); cbn;
        [by right | by left].
  - unfold handleKeyPress, handleSendMessage.
    destruct (bool_decide (key = "Enter") && negb shift).
    + destruct Hinv as [[Hl Ho]|[Hl Ho]]; rewrite Hl, Ho.
      * rewrite orb_true_r. cbn. by left.
      * destruct (negb (truthy (trim (inputValue (view x))))); cbn;
          [by right | by left].
    + cbn. by rewrite Nat.add_0_r.
  - destruct Hinv as [[Hl Ho]|[Hl Ho]]; rewrite Ho; [|by right].
    destruct o as [[r|]|e]; cbn; by right.
  - destruct o as [[[[l|]]|]|e]; cbn; done.
Qed.

(** X13: from the mount on, whatever the user types, presses, and
    whenever replies and the history load arrive, at most one
    [askQuestion] promise is outstanding, and [isLoading] is true exactly
    while one is. *)
Theorem X13_at_most_one_request_outstanding :
  ∀ (note : Note.t) (clock : Clock) (evs : list Event),
    let x := (run note evs (mounted note clock)).1 in
    (outstanding x ≤ 1)%nat
    ∧ (isLoading (view x) = true ↔ outstanding x = 1%nat).
Proof.
  intros note clock evs.
  assert (∀ x0,
    (isLoading (view x0) = true ∧ outstanding x0 = 1%nat)
    ∨ (isLoading (view x0) = false ∧ outstanding x0 = 0%nat) →
    let x := (run note evs x0).1 in
    (isLoading (view x) = true ∧ outstanding x = 1%nat)
    ∨ (isLoading (view x) = false ∧ outstanding x = 0%nat)) as Hrun.
  { induction evs as [|ev evs IH]; intros x0 Hinv; cbn; [done|].
    pose proof (step_gate note ev x0 Hinv) as Hstep.
    destruct (step note ev x0) as [x1 effs1]. cbn in Hstep.
    specialize (IH x1 Hstep). cbn in IH.
    by destruct (run note evs x1) as [x2 effs2]. }
  specialize (Hrun (mounted note clock) (or_intror (conj eq_refl eq_refl))).
  cbv zeta in *.
  destruct Hrun as [[Hl Ho]|[Hl Ho]]; rewrite Hl, Ho; split; try lia; try done.
Qed.

Lemma step_appends note ev x :
  is_LoadSettled ev = false →
  messages (view x) `prefix_of` messages (view (step note ev x).1).
Proof.
  intros Hev. destruct ev as [v|clock|key shift clock|clock o|o]; cbn.
  - done.
  - unfold handleSendMessage.
    destruct (negb _ || _); cbn; [done | by apply prefix_app_r].
  - unfold handleKeyPress, handleSendMessage.
    destruct (bool_decide _ && _); [|done].
    destruct (negb _ || _); cbn; [done | by apply prefix_app_r].
  - destruct (outstanding x); [done|].
    destruct o as [[r|]|e]; cbn; by apply prefix_app_r.
  - done.
Qed.

(** X14: as long as no history load settles, the transcript is
    append-only: whatever is typed, sent and answered, the transcript
    before is a prefix of the transcript after. *)
Theorem X14_transcript_append_only :
  ∀ (note : Note.t) (evs : list Event) (x : Session),
    Forall (λ ev, is_LoadSettled ev = false) evs →
    messages (view x) `prefix_of` messages (view (run note evs x).1).
Proof.
  intros note evs. induction evs as [|ev evs IH]; intros x Hall; cbn; [done|].
  apply Forall_cons in Hall as [Hev Hall].
  pose proof (step_appends note ev x Hev) as Hstep.
  destruct (step note ev x) as [x1 effs1]. cbn in Hstep.
  specialize (IH x1 Hall).
  destruct (run note evs x1) as [x2 effs2]. cbn in *.
  by etrans.
Qed.

Lemma X14_witness :
  messages (view (mounted Samples.note Samples.clock))
    `prefix_of`
  messages (view (run Samples.note
                    [Typed "Why?"; Send Samples.clock;
                     AskSettled Samples.clock (Throw FetchFailed)]
                    (mounted Samples.note Samples.clock)).1).
Proof.
  apply (X14_transcript_append_only Samples.note
           [Typed "Why?"; Send Samples.clock;
            AskSettled Samples.clock (Throw FetchFailed)]
           (mounted Samples.note Samples.clock)).
  repeat constructor.
Defined.

End ChatSessionFacts.

(** ** Message ids *)

Section MessageIds.
Import ChatInterface.

Lemma to_uint_nonnil (n : N) : N.to_uint n ≠ Decimal.Nil.
Proof.
  destruct n as [|p]; [discriminate|].
  apply DecimalPos.Unsigned.to_uint_nonnil.
Qed.

Lemma number_to_string_inj n m :
  number_to_string n = number_to_string m → n = m.
Proof.
  unfold number_to_string. intros H.
  apply (f_equal NilZero.uint_of_string) in H.
  rewrite !NilZero.usu in H by apply to_uint_nonnil.
  injection H as H. by apply DecimalN.Unsigned.to_uint_inj.
Qed.

Lemma number_to_string_digit n :
  ∃ c s, number_to_string n = String c s
         ∧ (48 ≤ Ascii.N_of_ascii c ≤ 57)%N.
Proof.
  unfold number_to_string. pose proof (to_uint_nonnil n) as Hn.
  destruct (N.to_uint n); [done|..]; cbn; eexists _, _; (split; [done|]);
    cbn; lia.
Qed.

(** X15: the ids the chat gives its own messages are decimal numerals, so
    none of them is the id [welcome] of the welcome message; and within
    one exchange, where the reply is handled no earlier than the send, the
    assistant message (or the apology) never gets the id of the user
    message it answers. *)
Theorem X15_local_message_ids :
  ∀ (note : Note.t) (clock clock' : Clock)
    (outcome : Completion (option AskResponse.t)) (s : State) u a,
    (now clock ≤ now clock')%N →
    last (messages (handleSendMessage note clock s).1) = Some u →
    (handleSendMessage note clock s).2 ≠ [] →
    last (messages (handleSendMessage_settled clock' outcome
                      (handleSendMessage note clock s).1).1) = Some a →
    ConversationMessage.id u ≠ ConversationMessage.id a
    ∧ ConversationMessage.id u ≠ "welcome"
    ∧ ConversationMessage.id a ≠ "welcome".
Proof.
  intros note clock clock' outcome s u a Hclock Hu Hsent Ha.
  assert (∀ n, number_to_string n ≠ "welcome") as Hnum.
  { intros n H. destruct (number_to_string_digit n) as (c & t & Hc & Hr).
    rewrite Hc in H. injection H as -> _. cbn in Hr. lia. }
  unfold handleSendMessage in *.
  destruct (negb _ || _); [done|]. cbn in Hu, Ha.
  rewrite last_snoc in Hu. injection Hu as <-.
  destruct outcome as [[r|]|e]; cbn in Ha;
    rewrite last_snoc in Ha; injection Ha as <-; cbn;
    (split; [|split; apply Hnum]);
    intros H%number_to_string_inj; lia.
Qed.

Lemma X15_witness :
  ∃ u a,
    last (messages (handleSendMessage Samples.note Samples.clock
                      Samples.asking).1) = Some u
    ∧ last (messages (handleSendMessage_settled Samples.clock
                        (Throw FetchFailed)
                        (handleSendMessage Samples.note Samples.clock
                           Samples.asking).1).1) = Some a
    ∧ ConversationMessage.id u ≠ ConversationMessage.id a.
Proof.
  eexists _, _. split; [reflexivity|]. split; [reflexivity|].
  apply (X15_local_message_ids Samples.note Samples.clock Samples.clock
           (Throw FetchFailed) Samples.asking).
  - apply N.le_refl.
  - reflexivity.
  - discriminate.
  - reflexivity.
Defined.

End MessageIds.

(** ** More on the quiz flow *)

Section QuizSessionFacts.
Import QuizInterface QuizResults.
Variable note : Note.t.

Lemma step_consistent generated ev s :
  consistent generated s → consistent generated (step note ev s).1.
Proof.
  intros (Hqs & Hidx & Hlen & Hent).
  destruct ev as [a| |o]; cbn.
  - done.
  - unfold handleNextQuestion.
    destruct (negb (truthy (selectedAnswer s))); [done|].
    destruct (lookup_lt_is_Some_2 (questions s) (currentQuestionIndex s))
      as [q Hq]; [by rewrite Hqs|].
    rewrite Hq. cbn.
    assert (∀ i e, (answers s ++ [newAnswer q (selectedAnswer s)]) !! i
                     = Some e →
              ∃ q', generated !! (i `min` (length generated - 1))%nat = Some q'
                    ∧ Answer.question e = Question.question q') as Hent'.
    { intros i e [Hi|[Hi He]]%lookup_app_Some; [by eapply Hent|].
      destruct (i - length (answers s))%nat eqn:Hd; [|done].
      injection He as <-. exists q. split; [|done].
      rewrite <- Hqs, <- Hq. f_equal. rewrite Hqs. lia. }
    destruct (Z.of_nat _ <? _)%Z eqn:Hlt; cbn.
    + apply Z.ltb_lt in Hlt. rewrite Hqs in Hlt.
      unfold consistent. cbn. rewrite length_app. cbn.
      repeat split; try done; lia.
    + apply Z.ltb_ge in Hlt. rewrite Hqs in Hlt.
      unfold consistent. cbn. rewrite length_app. cbn.
      repeat split; try done; lia.
  - by destruct o.
Qed.

Lemma started_consistent generated s0 :
  generated ≠ [] → consistent generated (started generated s0).
Proof.
  intros Hne. repeat split; cbn; try done.
  - destruct generated; [done | cbn; lia].
  - by left.
Qed.

(** X16: a quiz started on a non-empty list of generated questions stays
    consistent under every sequence of selections, button presses and
    settled submissions (failed ones and repeated ones included): the
    questions are the generated ones, the index is in range, so the
    button handler never throws, and entry [i] of the accumulator carries
    the text of question [i], or of the last question for entries past
    the end. *)
Theorem X16_quiz_stays_consistent :
  ∀ (generated : list Question.t) (evs : list Event) (s0 : State),
    generated ≠ [] →
    let s := (run note evs (started generated s0)).1 in
    questions s = generated
    ∧ (currentQuestionIndex s < length generated)%nat
    ∧ is_Some (currentQuestion s)
    ∧ (∃ r, handleNextQuestion note s = Return r)
    ∧ ∀ i e, answers s !! i = Some e →
        ∃ q, generated !! (i `min` (length generated - 1))%nat = Some q
             ∧ Answer.question e = Question.question q.
Proof.
  intros generated evs s0 Hne.
  assert (∀ s1, consistent generated s1 →
                consistent generated (run note evs s1).1) as Hrun.
  { induction evs as [|ev evs IH]; intros s1 Hc; cbn; [done|].
    pose proof (step_consistent generated ev s1 Hc) as Hstep.
    destruct (step note ev s1) as [s2 effs2]. cbn in Hstep.
    specialize (IH s2 Hstep).
    by destruct (run note evs s2) as [s3 effs3]. }
  destruct (Hrun _ (started_consistent generated s0 Hne))
    as (Hqs & Hidx & _ & Hent).
  cbv zeta. set (s := (run note evs (started generated s0)).1) in *.
  assert (is_Some (currentQuestion s)) as [q Hq].
  { unfold currentQuestion. apply lookup_lt_is_Some. by rewrite Hqs. }
  repeat split; try done.
  unfold handleNextQuestion. unfold currentQuestion in Hq. rewrite Hq.
  destruct (negb _); [eauto|]. cbn. destruct (_ <? _)%Z; eauto.
Qed.

(** X17: when a question is on display and an answer is entered, the
    button reads "Submit Quiz" exactly when pressing it submits the
    answers, and "Next Question" exactly when pressing it moves on to the
    next question without any request. *)
Theorem X17_button_label_matches_action :
  ∀ (s : State),
    is_Some (currentQuestion s) → selectedAnswer s ≠ "" →
    (button_label s = "Submit Quiz"
     ↔ ∃ s' sent, handleNextQuestion note s
                  = Return (s', [ApiCall (Api.SubmitAnswers (Note.id note) sent)])
                  ∧ currentQuestionIndex s' = currentQuestionIndex s)
    ∧ (button_label s = "Next Question"
       ↔ ∃ s', handleNextQuestion note s = Return (s', [])
               ∧ currentQuestionIndex s' = S (currentQuestionIndex s)).
Proof.
  intros s [q Hq] Hsel. unfold currentQuestion in Hq.
  pose proof (lookup_lt_Some _ _ _ Hq) as Hidx.
  unfold button_label, handleNextQuestion.
  rewrite (proj2 (truthy_true _) Hsel), Hq. cbn.
  case_bool_decide as Hlast.
  - rewrite (proj2 (Z.ltb_ge _ _)) by lia. cbn. split.
    + split; [eauto|done].
    + split; [done|]. by intros (s' & [= _] & _).
  - rewrite (proj2 (Z.ltb_lt _ _)) by lia. cbn. split.
    + split; [done|]. by intros (s' & sent & [= _] & _).
    + split; [|done]. intros _. eexists. split; [done|]. cbn. lia.
Qed.

(** X18: when [generateQuiz] resolves with no [questions] field or with an
    empty array, the quiz still enters the 'taking' state: no question is
    on display, the component renders the loading placeholder, the button
    is not available, and the button handler would throw if it were
    invoked with an answer. *)
Theorem X18_empty_quiz_is_a_dead_end :
  ∀ (response : QuestionsResponse.t) (s : State) (a : string),
    default [] (QuestionsResponse.questions response) = [] →
    a ≠ "" →
    let s' := (generateQuiz_settled (Return (Some response)) s).1 in
    quizState s' = taking
    ∧ render s' = LoadingView
    ∧ next_enabled (handleAnswerSelect a s') = false
    ∧ handleNextQuestion note (handleAnswerSelect a s') = Throw TypeError.
Proof.
  intros response s a Hempty Ha. cbn.
  unfold render, next_enabled, handleNextQuestion, currentQuestion. cbn.
  rewrite Hempty, (proj2 (truthy_true a) Ha). by cbn.
Qed.

(** After the canonical rounds the accumulator is the questions zipped
    with the answers, with the questions and the state tag untouched. *)
Lemma answer_all_state given :
  ∀ s, given ≠ [] → Forall (λ a, a ≠ "") given →
    (currentQuestionIndex s + length given = length (questions s))%nat →
    let s' := (run note (answer_all given) s).1 in
    answers s'
      = answers s ++ zip_with newAnswer
                       (drop (currentQuestionIndex s) (questions s)) given
    ∧ questions s' = questions s
    ∧ quizState s' = quizState s
    ∧ results s' = results s.
Proof.
  induction given as [|a given IH]; intros s Hne Hall Hlen; [done|].
  apply Forall_cons in Hall as [Ha Hall]. cbn [length] in Hlen.
  destruct (lookup_lt_is_Some_2 (questions s) (currentQuestionIndex s))
    as [q Hq]; [lia|].
  cbv zeta. rewrite answer_all_cons, run_app. cbn [fst].
  rewrite (drop_S _ q _ Hq). cbn [zip_with].
  rewrite (round note s q a Hq Ha).
  destruct given as [|a2 given].
  - rewrite decide_False by (cbn in Hlen; lia). cbn.
    by rewrite zip_with_nil_r.
  - rewrite decide_True by (cbn in Hlen; lia). cbn [fst].
    edestruct IH as (Hans & Hqs & Hst & Hres);
      [done | exact Hall | | rewrite Hans, Hqs, Hst, Hres];
      cbn in *; [lia|].
    by rewrite Nat.add_1_r, <- app_assoc.
Qed.

Lemma review_from_ok (qs : list Question.t) r :
  ∀ (l : list Answer.t) index,
    (index + length l ≤ length qs)%nat →
    ∃ rows,
      review_from qs r index l = Return rows
      ∧ length rows = length l
      ∧ ∀ i a, l !! i = Some a →
          ∃ q, qs !! (index + i)%nat = Some q
               ∧ rows !! i = Some (row r (index + i) q a).
Proof.
  induction l as [|answer l IH]; intros index Hlen; cbn.
  - exists []. by repeat split.
  - cbn in Hlen.
    destruct (lookup_lt_is_Some_2 qs index) as [q Hq]; [lia|].
    rewrite Hq. destruct (IH (S index)) as (rows & -> & Hl & Hrows); [lia|].
    eexists. split; [done|]. split; [cbn; by rewrite Hl|].
    intros [|i] a Ha; cbn in *.
    + injection Ha as <-. exists q. by rewrite Nat.add_0_r.
    + destruct (Hrows i a Ha) as (q' & Hq' & Hr).
      exists q'. by rewrite <- Nat.add_succ_comm.
Qed.



End QuizSessionFacts.

Section QuizSessionInstances.
Import QuizInterface QuizResults.

Lemma X16_witness :
  Samples.three_questions ≠ []
  ∧ is_Some (currentQuestion
               (run Samples.note
                  [Select "a"; Next; Next; SubmitSettled (Throw FetchFailed)]
                  (started Samples.three_questions initial)).1).
Proof.
  assert (Samples.three_questions ≠ []) as Hne by discriminate.
  split; [exact Hne|].
  apply (X16_quiz_stays_consistent Samples.note Samples.three_questions
           [Select "a"; Next; Next; SubmitSettled (Throw FetchFailed)]
           initial Hne).
Defined.

Lemma X17_witness :
  button_label (handleAnswerSelect "a"
                  (started Samples.three_questions initial))
    = "Next Question".
Proof.
  apply (proj2 (X17_button_label_matches_action Samples.note
                  (handleAnswerSelect "a"
                     (started Samples.three_questions initial))
                  ltac:(by eexists) ltac:(discriminate))).
  eexists. split; reflexivity.
Defined.

Lemma X18_witness :
  render (generateQuiz_settled
            (Return (Some {| QuestionsResponse.questions := Some [] |}))
            initial).1 = LoadingView.
Proof.
  apply (X18_empty_quiz_is_a_dead_end Samples.note
           {| QuestionsResponse.questions := Some [] |} initial "a").
  - reflexivity.
  - discriminate.
Defined.


(** ... and the session with a failed and a repeated submission ends on
    a render that throws. *)
Example resubmitted_quiz_cannot_be_reviewed :
  render (run Samples.note
            (answer_all ["a"; "b"; "c"]
               ++ [SubmitSettled (Throw FetchFailed); Next;
                   SubmitSettled (Return (Some MoreSamples.graded_all_right))])
            (started Samples.three_questions initial)).1
  = RenderError.
Proof. reflexivity. Qed.

End QuizSessionInstances.

Section QuizReviewFacts.
Import QuizInterface QuizResults.

(** X20: when every generated question has been answered in turn and the
    submission resolves, the component shows the results view with the
    returned score (0 when the response has none), the number of
    questions as the total, and one review row per question: row [i]
    shows the text of question [i] with the answer entered for it. *)
Theorem X20_results_review_pairs_questions_with_answers :
  ∀ (note : Note.t) (generated : list Question.t) (given : list string)
    (r : Results.t) (s0 : State),
    generated ≠ [] →
    length given = length generated →
    Forall (λ a, a ≠ "") given →
    let s := (run note (answer_all given ++ [SubmitSettled (Return (Some r))])
                (started generated s0)).1 in
    ∃ rows,
      render s = ResultsView (default 0 (Results.score r))
                   (length generated) rows
      ∧ length rows = length generated
      ∧ ∀ i q a, generated !! i = Some q → given !! i = Some a →
          rows !! i = Some {| correct := isCorrect r i;
                              questionText := Question.question q;
                              yourAnswer := a;
                              correctAnswerShown :=
                                correction (isCorrect r i) q |}.
Proof.
  intros note generated given r s0 Hne Hlen Hall.
  destruct (answer_all_state note given (started generated s0))
    as (Hans & Hqs & Hst & _); [by destruct given, generated | done | by cbn |].
  cbv zeta in Hans, Hqs, Hst.
  change (answers (started generated s0)) with (@nil Answer.t) in Hans.
  change (currentQuestionIndex (started generated s0)) with 0%nat in Hans.
  change (questions (started generated s0)) with generated in Hans, Hqs.
  rewrite drop_0 in Hans. cbn [app] in Hans.
  cbv zeta. rewrite run_app. cbn [fst].
  set (s1 := (run note (answer_all given) (started generated s0)).1) in *.
  cbn. unfold render. cbn. rewrite Hans, Hqs.
  destruct (review_from_ok generated r (zip_with newAnswer generated given) 0)
    as (rows & -> & Hl & Hrows).
  { cbn. by rewrite length_zip_with_l_eq. }
  exists rows. split; [done|].
  split; [by rewrite Hl, length_zip_with_l_eq|].
  intros i q a Hq Ha.
  destruct (Hrows i (newAnswer q a)) as (q' & Hq' & ->).
  { apply lookup_zip_with_Some. eauto. }
  cbn in Hq'. by simplify_eq.
Qed.

Lemma X20_witness :
  ∃ rows,
    render (run Samples.note
              (answer_all ["a"; "b"; "c"]
                 ++ [SubmitSettled (Return (Some MoreSamples.graded_all_right))])
              (started Samples.three_questions initial)).1
      = ResultsView 3 3 rows
    ∧ length rows = 3%nat
    ∧ ∀ i q a, Samples.three_questions !! i = Some q →
        ["a"; "b"; "c"] !! i = Some a →
        rows !! i = Some {| correct := isCorrect MoreSamples.graded_all_right i;
                            questionText := Question.question q;
                            yourAnswer := a;
                            correctAnswerShown :=
                              correction
                                (isCorrect MoreSamples.graded_all_right i) q |}.
Proof.
  apply (X20_results_review_pairs_questions_with_answers
           Samples.note Samples.three_questions ["a"; "b"; "c"]
           MoreSamples.graded_all_right initial).
  - discriminate.
  - reflexivity.
  - repeat constructor; discriminate.
Defined.

End QuizReviewFacts.

(** ** The note catalog *)

Section NotesGridFacts.
Import NotesGrid.

(** X21: a deletion that resolves before anything else changes the list
    removes every note with the given id and nothing else: the other
    notes stay, in their order; a deletion that fails changes nothing. *)
Theorem X21_delete_removes_exactly_that_note :
  ∀ (id : string) (s : State) (e : Thrown),
    let d := (handleDeleteNote id s).1 in
    let s' := (handleDeleteNote_settled d (Return ()) s).1 in
    (handleDeleteNote id s).2 = [ApiCall (Api.DeleteNote id)]
    ∧ (∀ n, n ∈ notes s' ↔ n ∈ notes s ∧ Note.id n ≠ id)
    ∧ notes s' `sublist_of` notes s
    ∧ ((∀ n, n ∈ notes s → Note.id n ≠ id) → notes s' = notes s)
    ∧ (handleDeleteNote_settled d (Throw e) s).1 = s.
Proof.
  intros id s e. cbn. split; [done|]. split; [|split; [|split; [|done]]].
  - intros n. rewrite list_elem_of_filter. tauto.
  - apply sublist_filter.
  - intros Hnone. induction (notes s) as [|n l IH]; [done|].
    rewrite filter_cons_True by (apply Hnone; left).
    f_equal. apply IH. intros n' Hn'. apply Hnone. by right.
Qed.

Lemma X21_witness :
  notes (handleDeleteNote_settled
           (handleDeleteNote "c"
              {| notes := [MoreSamples.note_named "a";
                           MoreSamples.note_named "b"];
                 isLoading := false |}).1 (Return ())
           {| notes := [MoreSamples.note_named "a";
                        MoreSamples.note_named "b"];
              isLoading := false |}).1
  = [MoreSamples.note_named "a"; MoreSamples.note_named "b"].
Proof.
  apply (proj1 (proj2 (proj2 (proj2
           (X21_delete_removes_exactly_that_note "c"
              {| notes := [MoreSamples.note_named "a";
                           MoreSamples.note_named "b"];
                 isLoading := false |} FetchFailed))))).
  intros n Hn.
  apply elem_of_cons in Hn as [->|Hn]; [discriminate|].
  apply elem_of_cons in Hn as [->|Hn]; [discriminate|].
  by apply elem_of_nil in Hn.
Defined.

(** X22: [handleDeleteNote] filters the [notes] array of the render it was
    created in.  When two deletions (of different ids) are started from
    the same render and both resolve, the second result overwrites the
    first: the list ends up as the original one without the second id
    only, so the notes deleted first are listed again; whereas started
    one after the other, neither id remains. *)
Theorem X22_overlapping_deletions_lose_the_first :
  ∀ (a b : string) (s : State),
    a ≠ b →
    let d1 := (handleDeleteNote a s).1 in
    let d2 := (handleDeleteNote b s).1 in
    let overlapped :=
      (handleDeleteNote_settled d2 (Return ())
         (handleDeleteNote_settled d1 (Return ()) s).1).1 in
    let s1 := (handleDeleteNote_settled d1 (Return ()) s).1 in
    let in_turn :=
      (handleDeleteNote_settled (handleDeleteNote b s1).1 (Return ()) s1).1 in
    notes overlapped = filter (λ n, Note.id n ≠ b) (notes s)
    ∧ (∀ n, n ∈ notes s → Note.id n = a → n ∈ notes overlapped)
    ∧ (∀ n, n ∈ notes in_turn → Note.id n ≠ a ∧ Note.id n ≠ b).
Proof.
  intros a b s Hab. cbn. split; [done|]. split.
  - intros n Hn Ha. apply list_elem_of_filter. split; [congruence | done].
  - intros n [Hb [Ha _]%list_elem_of_filter]%list_elem_of_filter. done.
Qed.

Lemma X22_witness :
  "a" ≠ "b"
  ∧ MoreSamples.note_named "a"
      ∈ notes (handleDeleteNote_settled
                 (handleDeleteNote "b"
                    {| notes := [MoreSamples.note_named "a";
                                 MoreSamples.note_named "b"];
                       isLoading := false |}).1 (Return ())
                 (handleDeleteNote_settled
                    (handleDeleteNote "a"
                       {| notes := [MoreSamples.note_named "a";
                                    MoreSamples.note_named "b"];
                          isLoading := false |}).1 (Return ())
                    {| notes := [MoreSamples.note_named "a";
                                 MoreSamples.note_named "b"];
                       isLoading := false |}).1).1.
Proof.
  assert ("a" ≠ "b") as Hab by discriminate.
  split; [exact Hab|].
  apply (proj1 (proj2 (X22_overlapping_deletions_lose_the_first "a" "b"
                  {| notes := [MoreSamples.note_named "a";
                               MoreSamples.note_named "b"];
                     isLoading := false |} Hab))).
  - left.
  - reflexivity.
Defined.

(** X25: the title of a card is the first non-empty one of the note's
    [title], [filename] and [note_name]; it is empty only when
    [note_name] is. *)
Theorem X25_card_title_falls_back :
  ∀ (note : Note.t),
    (∀ t, Note.title note = Some t → t ≠ "" → card_title note = t)
    ∧ (∀ f, truthy_opt (Note.title note) = false →
            Note.filename note = Some f → f ≠ "" → card_title note = f)
    ∧ (truthy_opt (Note.title note) = false →
       truthy_opt (Note.filename note) = false →
       card_title note = Note.note_name note)
    ∧ (card_title note = "" → Note.note_name note = "").
Proof.
  intros note. unfold card_title, js_or_opt, js_or.
  split; [|split; [|split]].
  - intros t -> Ht. by destruct t.
  - intros f -> -> Hf. by destruct f.
  - by intros -> ->.
  - destruct (Note.title note) as [[|c t]|], (Note.filename note) as [[|c' f]|];
      cbn; done.
Qed.

Lemma X25_witness :
  card_title Samples.note = "Cells"
  ∧ card_title (MoreSamples.note_named "n7") = "n7".
Proof.
  split.
  - apply (proj1 (X25_card_title_falls_back Samples.note) "Cells");
      [reflexivity | discriminate].
  - apply (proj1 (proj2 (proj2 (X25_card_title_falls_back
                                  (MoreSamples.note_named "n7")))));
      reflexivity.
Defined.

End NotesGridFacts.

(** ** The dashboard *)

Section DashboardFacts.
Import StudyDashboard.

Lemma run_snoc evs ev s : run (evs ++ [ev]) s = step ev (run evs s).
Proof. unfold run. by rewrite foldl_app. Qed.

Lemma step_mode ev s :
  (viewMode s ≠ dashboard → is_Some (selectedNote s)) →
  viewMode (step ev s) ≠ dashboard → is_Some (selectedNote (step ev s)).
Proof.
  intros Hinv.
  destruct ev; cbn; destruct (viewMode s) eqn:Hm;
    try destruct (selectedNote s) eqn:Hn; cbn; rewrite ?Hm, ?Hn;
    try done; try (intros _; by eexists); try (by intros; apply Hinv).
Qed.

(** X23: whatever the user clicks, the main area of the dashboard is never
    blank: the chat and quiz views are only entered with a note selected.
    From the dashboard view, clicking a card and then Chat (or Quiz) opens
    the chat (or quiz) on that note, and Back returns to the note grid
    with no note selected. *)
Theorem X23_chat_and_quiz_always_have_a_note :
  ∀ (evs : list Event),
    render (run evs initial) ≠ EmptyMain
    ∧ ∀ note,
        viewMode (run evs initial) = dashboard →
        render (run (evs ++ [NoteSelect note; ChatClick]) initial)
          = ChatMain note
        ∧ render (run (evs ++ [NoteSelect note; QuizClick]) initial)
            = QuizMain note
        ∧ render (run (evs ++ [NoteSelect note; ChatClick; Back]) initial)
            = NotesMain (refreshKey (run evs initial))
        ∧ selectedNote (run (evs ++ [NoteSelect note; ChatClick; Back]) initial)
            = None.
Proof.
  intros evs.
  assert (viewMode (run evs initial) ≠ dashboard →
          is_Some (selectedNote (run evs initial))) as Hinv.
  { induction evs as [|ev evs IH] using rev_ind; [done|].
    rewrite run_snoc. by apply step_mode. }
  split.
  - unfold render. destruct (viewMode (run evs initial)) eqn:Hm; [done|..];
      (destruct Hinv as [n Hn]; [done | by rewrite Hn]).
  - intros note Hm. unfold run in *. rewrite !foldl_app. cbn [foldl].
    set (s := foldl _ initial evs) in *.
    unfold step, render, handleNoteSelect. rewrite Hm. cbn.
    by repeat split.
Qed.

Lemma X23_witness :
  render (run ([] ++ [NoteSelect Samples.note; ChatClick]) initial)
    = ChatMain Samples.note.
Proof.
  apply (proj2 (X23_chat_and_quiz_always_have_a_note []) Samples.note).
  reflexivity.
Defined.

Lemma step_refreshKey ev s :
  refreshKey (step ev s)
    = (refreshKey s + if is_UploadSuccess ev then 1 else 0)%N.
Proof.
  destruct ev; cbn; try destruct (viewMode s); try destruct (selectedNote s);
    cbn; lia.
Qed.

(** X24: the key under which the note grid is mounted counts the
    successful uploads: it changes with each of them, so the grid is
    remounted and reloads the list, and with nothing else. *)
Theorem X24_refresh_key_counts_uploads :
  ∀ (evs : list Event),
    refreshKey (run evs initial) = N.of_nat (uploads evs)
    ∧ ∀ ev, refreshKey (run (evs ++ [ev]) initial) ≠ refreshKey (run evs initial)
            ↔ ev = UploadSuccess.
Proof.
  intros evs. split.
  - induction evs as [|ev evs IH] using rev_ind; [done|].
    rewrite run_snoc, step_refreshKey, IH. unfold uploads.
    rewrite filter_app, length_app.
    assert (length (filter (λ ev, is_UploadSuccess ev = true) [ev])
            = if is_UploadSuccess ev then 1%nat else 0%nat) as ->
      by (by destruct ev).
    destruct (is_UploadSuccess ev); lia.
  - intros ev. rewrite run_snoc, step_refreshKey.
    destruct ev; cbn; split; try done; try lia.
Qed.

End DashboardFacts.
